(** * pkg/util/lb: status derivation, status comparison, replica policy

    A shallow embedding of [src/pkg/util/lb/lb.go] and the properties its
    specification states about it.  Go packages become modules ([v1] for
    the Kubernetes object model, [lbapi] for the load-balancer API types),
    Go [int] and [int32] values are integers with their wrap-around written
    out, nil-able pointers inside the objects are options, slices are lists.
    [ComputePodStatus] and [CalculateReplicas] are given the object their
    argument points to; [ComputePodStatus_at] and [CalculateReplicas_at]
    are given the pointer, and panic on nil. *)

From Stdlib Require Import ZArith String Ascii DecimalString.
From stdpp Require Import base tactics option list strings sorting.

Local Open Scope Z_scope.
Local Open Scope string_scope.

(** ** Machine integers *)

(** The value a [w]-bit two's-complement integer holds after an operation
    whose mathematical result is [z]. *)
Definition wrap (w : Z) (z : Z) : Z :=
  (z + 2 ^ (w - 1)) `mod` 2 ^ w - 2 ^ (w - 1).

(** Go's [int] on the 64-bit targets of the controller, and [int32]. *)
Definition int (z : Z) : Z := wrap 64 z.
Definition int32 (z : Z) : Z := wrap 32 z.

Definition max_int32 : Z := 2 ^ 31 - 1.
Definition max_int : Z := 2 ^ 63 - 1.

(** [len(s)] of a slice, as an [int]. *)
Definition len {A : Type} (s : list A) : Z := Z.of_nat (length s).

(** The verb [%d] of [fmt.Sprintf]: decimal digits, with a minus sign for a
    negative value. *)
Definition Sprintf_d (z : Z) : string := NilZero.string_of_int (Z.to_int z).

(** ** k8s.io/client-go/pkg/api/v1: the fields of a pod the package reads *)

Module v1.

Record ContainerStateWaiting := {
  waiting_Reason : string;
}.

Record ContainerStateRunning := {
  StartedAt : Z;
}.

Record ContainerStateTerminated := {
  ExitCode : Z;            (* int32 *)
  Signal : Z;              (* int32 *)
  terminated_Reason : string;
}.

(** At most one of the three pointers is set by the kubelet; the type
    allows any combination, and so does the code below. *)
Record ContainerState := {
  Waiting : option ContainerStateWaiting;
  Running : option ContainerStateRunning;
  Terminated : option ContainerStateTerminated;
}.

Record ContainerStatus := {
  container_Name : string;
  State : ContainerState;
  Ready : bool;
  RestartCount : Z;        (* int32 *)
}.

(** Of a declared container only its presence in [Spec.Containers] is
    read. *)
Record Container := {
  Name : string;
  Image : string;
}.

Record PodSpec := {
  Containers : list Container;
  NodeName : string;
}.

Record PodStatus := {
  Phase : string;          (* PodPhase, a string type *)
  Reason : string;
  ContainerStatuses : list ContainerStatus;
}.

Record Pod := {
  pod_Name : string;
  DeletionTimestamp : option Z;   (* *metav1.Time *)
  Spec : PodSpec;
  Status : PodStatus;
}.

End v1.

(** ** github.com/caicloud/clientset/pkg/apis/loadbalance/v1alpha2 *)

Module lbapi.

(** Modelled from the spec: the declaration of [PodStatus] is in the
    clientset repository; its fields are those the spec lists for a
    worker status, the same six that [ComputePodStatus] fills in. *)
Record PodStatus := {
  Name : string;
  Ready : bool;
  NodeName : string;
  ReadyContainers : Z;     (* int32 *)
  TotalContainers : Z;     (* int32 *)
  Reason : string;
}.

(** Modelled from the spec: [PodStatuses] holds the slice [Statuses] and
    aggregate-only fields next to it.  The declaration of those fields is
    in the clientset repository, so they are kept as one value of a type
    [C] the development is parametric in. *)
Record PodStatuses (C : Type) := {
  counters : C;
  Statuses : list PodStatus;
}.
Arguments counters {C} _.
Arguments Statuses {C} _.

(** Modelled from the spec: the two sibling aggregates embed one
    [PodStatuses] and carry kind-specific fields, of a type [F] here. *)
Record ProxyStatus (C F : Type) := {
  proxy_PodStatuses : PodStatuses C;
  proxy_fields : F;
}.
Arguments proxy_PodStatuses {C F} _.
Arguments proxy_fields {C F} _.

Record IpvsdrProviderStatus (C F : Type) := {
  ipvsdr_PodStatuses : PodStatuses C;
  ipvsdr_fields : F;
}.
Arguments ipvsdr_PodStatuses {C F} _.
Arguments ipvsdr_fields {C F} _.

(** [LoadBalancer.Spec.Nodes], the part of a load balancer that
    [CalculateReplicas] reads. *)
Record NodesSpec := {
  Replicas : option Z;     (* *int32 *)
  Names : list string;
}.

Record LoadBalancerSpec := {
  Nodes : NodesSpec;
}.

Record LoadBalancer := {
  lb_Name : string;
  Spec : LoadBalancerSpec;
}.

End lbapi.

(** ** package lb *)

Definition NodeUnreachablePodReason : string := "NodeLost".

(** *** ComputePodStatus *)

(** The local variables the loop of [ComputePodStatus] updates. *)
Record scan_state := {
  restarts : Z;
  readyContainers : Z;
  reason : string;
}.

Definition non_empty (s : string) : bool := negb (String.eqb s EmptyString).

(** One iteration of the loop body, on [container]: the sum of restarts,
    then the chain of [if ... else if ...] on the container's state. *)
Definition scan_step (st : scan_state) (container : v1.ContainerStatus) : scan_state :=
  let restarts' := int (restarts st + v1.RestartCount container) in
  let state := v1.State container in
  let set_reason (r : string) :=
    {| restarts := restarts'; readyContainers := readyContainers st; reason := r |} in
  let running_branch :=
    if v1.Ready container && bool_decide (v1.Running state <> None) then
      {| restarts := restarts';
         readyContainers := int (readyContainers st + 1);
         reason := reason st |}
    else set_reason (reason st) in
  let terminated_branch :=
    match v1.Terminated state with
    | Some t =>
        if non_empty (v1.terminated_Reason t) then
          set_reason (v1.terminated_Reason t)
        else if negb (Z.eqb (v1.Signal t) 0) then
          set_reason ("Signal:" ++ Sprintf_d (v1.Signal t))
        else
          set_reason ("ExitCode:" ++ Sprintf_d (v1.ExitCode t))
    | None => running_branch
    end in
  match v1.Waiting state with
  | Some w =>
      if non_empty (v1.waiting_Reason w) then set_reason (v1.waiting_Reason w)
      else terminated_branch
  | None => terminated_branch
  end.

(** [for i := len(statuses) - 1; i >= 0; i--]: [n] iterations are left and
    the next one reads index [n - 1].  An index outside the slice would
    panic; it cannot happen from [n = len(statuses)] and the loop stops
    there in the model. *)
Fixpoint scan (statuses : list v1.ContainerStatus) (n : nat) (st : scan_state)
    : scan_state :=
  match n with
  | O => st
  | S i =>
      match statuses !! i with
      | Some container => scan statuses i (scan_step st container)
      | None => st
      end
  end.

Definition ComputePodStatus (pod : v1.Pod) : lbapi.PodStatus :=
  let totalContainers := len (v1.Containers (v1.Spec pod)) in
  let reason0 :=
    if non_empty (v1.Reason (v1.Status pod)) then v1.Reason (v1.Status pod)
    else v1.Phase (v1.Status pod) in
  let statuses := v1.ContainerStatuses (v1.Status pod) in
  let st :=
    scan statuses (length statuses)
      {| restarts := 0; readyContainers := 0; reason := reason0 |} in
  let ready := bool_decide (readyContainers st = totalContainers) in
  let '(ready, reason) :=
    match v1.DeletionTimestamp pod with
    | Some _ =>
        if String.eqb (v1.Reason (v1.Status pod)) NodeUnreachablePodReason
        then (false, "Unknown")
        else (false, "Terminating")
    | None => (ready, reason st)
    end in
  {| lbapi.Name := v1.pod_Name pod;
     lbapi.Ready := ready;
     lbapi.NodeName := v1.NodeName (v1.Spec pod);
     lbapi.ReadyContainers := int32 (readyContainers st);
     lbapi.TotalContainers := int32 totalContainers;
     lbapi.Reason := reason |}.

(** *** SplitNamespaceAndNameByDot *)




(** *** CalculateReplicas *)

Definition CalculateReplicas (lb : lbapi.LoadBalancer) : Z * bool :=
  let nodes := lbapi.Nodes (lbapi.Spec lb) in
  let replicas := 0 in
  let needNodeAffinity := false in
  let replicas :=
    match lbapi.Replicas nodes with
    | Some r => r
    | None => replicas
    end in
  if negb (Z.eqb (len (lbapi.Names nodes)) 0) then
    (int32 (len (lbapi.Names nodes)), true)
  else
    (replicas, needNodeAffinity).

(** *** The comparators *)

(** [reflect.DeepEqual] on values made of strings, integers, booleans and
    structs of them is equality of the values.  It also tells a nil slice
    from an empty one, which a list cannot: the package calls it only on
    worker statuses, which hold no slice, and on aggregates whose slice it
    has set to nil or to the zero value on both sides, and so does this
    file. *)
Definition DeepEqual {A : Type} `{EqDecision A} (x y : A) : bool :=
  bool_decide (x = y).

#[global] Instance PodStatus_eq_dec : EqDecision lbapi.PodStatus.
Proof. solve_decision. Defined.

#[global] Instance PodStatuses_eq_dec {C : Type} `{EqDecision C} :
  EqDecision (lbapi.PodStatuses C).
Proof. solve_decision. Defined.

#[global] Instance ProxyStatus_eq_dec {C F : Type} `{EqDecision C, EqDecision F} :
  EqDecision (lbapi.ProxyStatus C F).
Proof. solve_decision. Defined.

#[global] Instance IpvsdrProviderStatus_eq_dec {C F : Type}
    `{EqDecision C, EqDecision F} :
  EqDecision (lbapi.IpvsdrProviderStatus C F).
Proof. solve_decision. Defined.

(** The inner loop of [PodStatusesEqual]: the first [bs] of [bStatus] with
    the name of [as_] decides, and the scan breaks there. *)
Fixpoint match_by_name (as_ : lbapi.PodStatus) (bStatus : list lbapi.PodStatus)
    : bool :=
  match bStatus with
  | [] => false
  | bs :: rest =>
      if String.eqb (lbapi.Name as_) (lbapi.Name bs) then DeepEqual as_ bs
      else match_by_name as_ rest
  end.

(** The outer loop: the first [as_] without an equal match returns false. *)
Fixpoint all_matched (aStatus bStatus : list lbapi.PodStatus) : bool :=
  match aStatus with
  | [] => true
  | as_ :: rest =>
      if negb (match_by_name as_ bStatus) then false
      else all_matched rest bStatus
  end.

Section Comparators.

(** [C]: the fields of [PodStatuses] next to [Statuses]; [F], [G]: the
    fields of a [ProxyStatus] and of an [IpvsdrProviderStatus] next to the
    embedded [PodStatuses].  [inhabitant] is Go's zero value. *)
Context {C F G : Type}.
Context `{EqDecision C, EqDecision F, EqDecision G, Inhabited C}.

Definition PodStatusesEqual (a b : lbapi.PodStatuses C) : bool :=
  let aStatus := lbapi.Statuses a in
  let bStatus := lbapi.Statuses b in
  if negb (Z.eqb (len aStatus) (len bStatus)) then false
  else
    let a := {| lbapi.counters := lbapi.counters a; lbapi.Statuses := [] |} in
    let b := {| lbapi.counters := lbapi.counters b; lbapi.Statuses := [] |} in
    if negb (DeepEqual a b) then false
    else all_matched aStatus bStatus.

(** [lbapi.PodStatuses{}] *)
Definition PodStatuses_zero : lbapi.PodStatuses C :=
  {| lbapi.counters := inhabitant; lbapi.Statuses := [] |}.

Definition ProxyStatusEqual (a b : lbapi.ProxyStatus C F) : bool :=
  if negb (PodStatusesEqual (lbapi.proxy_PodStatuses a) (lbapi.proxy_PodStatuses b))
  then false
  else
    let a := {| lbapi.proxy_PodStatuses := PodStatuses_zero;
                lbapi.proxy_fields := lbapi.proxy_fields a |} in
    let b := {| lbapi.proxy_PodStatuses := PodStatuses_zero;
                lbapi.proxy_fields := lbapi.proxy_fields b |} in
    DeepEqual a b.

Definition IpvsdrProviderStatusEqual (a b : lbapi.IpvsdrProviderStatus C G) : bool :=
  if negb (PodStatusesEqual (lbapi.ipvsdr_PodStatuses a) (lbapi.ipvsdr_PodStatuses b))
  then false
  else
    let a := {| lbapi.ipvsdr_PodStatuses := PodStatuses_zero;
                lbapi.ipvsdr_fields := lbapi.ipvsdr_fields a |} in
    let b := {| lbapi.ipvsdr_PodStatuses := PodStatuses_zero;
                lbapi.ipvsdr_fields := lbapi.ipvsdr_fields b |} in
    DeepEqual a b.

End Comparators.

(** ** Notions the properties are stated with *)

(** The reason held before the scan: the pod's phase, or its own reason
    when it has one. *)
Definition initial_reason (pod : v1.Pod) : string :=
  if non_empty (v1.Reason (v1.Status pod)) then v1.Reason (v1.Status pod)
  else v1.Phase (v1.Status pod).

(** The reason a container sets when the scan visits it, if it sets one:
    its waiting reason, else its terminated reason, signal or exit code. *)
Definition container_reason (c : v1.ContainerStatus) : option string :=
  let of_terminated :=
    match v1.Terminated (v1.State c) with
    | Some t =>
        if non_empty (v1.terminated_Reason t) then Some (v1.terminated_Reason t)
        else if negb (Z.eqb (v1.Signal t) 0)
        then Some ("Signal:" ++ Sprintf_d (v1.Signal t))
        else Some ("ExitCode:" ++ Sprintf_d (v1.ExitCode t))
    | None => None
    end in
  match v1.Waiting (v1.State c) with
  | Some w =>
      if non_empty (v1.waiting_Reason w) then Some (v1.waiting_Reason w)
      else of_terminated
  | None => of_terminated
  end.

(** A container the scan counts as ready: it sets no reason, reports ready
    and is running. *)
Definition counts_ready (c : v1.ContainerStatus) : bool :=
  bool_decide (container_reason c = None)
  && v1.Ready c
  && bool_decide (v1.Running (v1.State c) <> None).

(** The reading of the scan in which the container later in the observed
    list has the last word on the reason. *)
Definition later_container_wins (pod : v1.Pod) : Prop :=
  forall r : string,
    last (omap container_reason (v1.ContainerStatuses (v1.Status pod))) = Some r ->
    lbapi.Reason (ComputePodStatus pod) = r.

(** Two container states that differ in nothing but their restart count,
    and two pods that differ in nothing but the restart counts of their
    container states. *)
Definition same_but_restarts (c d : v1.ContainerStatus) : Prop :=
  v1.container_Name c = v1.container_Name d
  /\ v1.State c = v1.State d
  /\ v1.Ready c = v1.Ready d.

Definition differ_only_in_restarts (p q : v1.Pod) : Prop :=
  v1.pod_Name p = v1.pod_Name q
  /\ v1.DeletionTimestamp p = v1.DeletionTimestamp q
  /\ v1.Spec p = v1.Spec q
  /\ v1.Phase (v1.Status p) = v1.Phase (v1.Status q)
  /\ v1.Reason (v1.Status p) = v1.Reason (v1.Status q)
  /\ Forall2 same_but_restarts
       (v1.ContainerStatuses (v1.Status p)) (v1.ContainerStatuses (v1.Status q)).

(** The number of containers of a slice that the scan counts as ready. *)
Definition count_ready (l : list v1.ContainerStatus) : Z :=
  len (List.filter counts_ready l).


(** The names of the workers of a list, in its order. *)
Definition names (l : list lbapi.PodStatus) : list string := lbapi.Name <$> l.

(** A change of one of the fields Ready, Reason, NodeName of a worker status
    to another value, the other fields kept. *)
Inductive field_change (w : lbapi.PodStatus) : lbapi.PodStatus -> Prop :=
  | change_Ready (r : bool) :
      r <> lbapi.Ready w ->
      field_change w
        {| lbapi.Name := lbapi.Name w; lbapi.Ready := r;
           lbapi.NodeName := lbapi.NodeName w;
           lbapi.ReadyContainers := lbapi.ReadyContainers w;
           lbapi.TotalContainers := lbapi.TotalContainers w;
           lbapi.Reason := lbapi.Reason w |}
  | change_Reason (r : string) :
      r <> lbapi.Reason w ->
      field_change w
        {| lbapi.Name := lbapi.Name w; lbapi.Ready := lbapi.Ready w;
           lbapi.NodeName := lbapi.NodeName w;
           lbapi.ReadyContainers := lbapi.ReadyContainers w;
           lbapi.TotalContainers := lbapi.TotalContainers w;
           lbapi.Reason := r |}
  | change_NodeName (n : string) :
      n <> lbapi.NodeName w ->
      field_change w
        {| lbapi.Name := lbapi.Name w; lbapi.Ready := lbapi.Ready w;
           lbapi.NodeName := n;
           lbapi.ReadyContainers := lbapi.ReadyContainers w;
           lbapi.TotalContainers := lbapi.TotalContainers w;
           lbapi.Reason := lbapi.Reason w |}.

(** The aggregate [a] with the list of its workers replaced. *)
Definition with_Statuses {C : Type} (l : list lbapi.PodStatus)
    (a : lbapi.PodStatuses C) : lbapi.PodStatuses C :=
  {| lbapi.counters := lbapi.counters a; lbapi.Statuses := l |}.

(** A comparator [equal] that judges [a] and [b] equal notices every change
    of one field of one worker, at any index [i], in [a] or in [b]. *)
Definition change_detected {C : Type}
    (equal : lbapi.PodStatuses C -> lbapi.PodStatuses C -> bool)
    (a b : lbapi.PodStatuses C) : Prop :=
  equal a b = true ->
  forall (i : nat) (w w' : lbapi.PodStatus),
    field_change w w' ->
    (lbapi.Statuses a !! i = Some w ->
     equal (with_Statuses (<[i:=w']> (lbapi.Statuses a)) a) b = false)
    /\ (lbapi.Statuses b !! i = Some w ->
        equal a (with_Statuses (<[i:=w']> (lbapi.Statuses b)) b) = false).

(** An aggregate of either kind around a [PodStatuses]. *)
Definition mk_proxy {C F : Type} (a : lbapi.PodStatuses C) (f : F)
    : lbapi.ProxyStatus C F :=
  {| lbapi.proxy_PodStatuses := a; lbapi.proxy_fields := f |}.

Definition mk_ipvsdr {C G : Type} (a : lbapi.PodStatuses C) (g : G)
    : lbapi.IpvsdrProviderStatus C G :=
  {| lbapi.ipvsdr_PodStatuses := a; lbapi.ipvsdr_fields := g |}.

(** ** Inputs the properties are evaluated on *)

(** A container state that is running and ready, and one that is waiting. *)
Definition running_ready (name : string) : v1.ContainerStatus :=
  {| v1.container_Name := name;
     v1.State := {| v1.Waiting := None;
                    v1.Running := Some {| v1.StartedAt := 0 |};
                    v1.Terminated := None |};
     v1.Ready := true;
     v1.RestartCount := 0 |}.

Definition waiting_on (name why : string) : v1.ContainerStatus :=
  {| v1.container_Name := name;
     v1.State := {| v1.Waiting := Some {| v1.waiting_Reason := why |};
                    v1.Running := None;
                    v1.Terminated := None |};
     v1.Ready := false;
     v1.RestartCount := 0 |}.

Definition terminated_by (name : string) (signal code : Z) : v1.ContainerStatus :=
  {| v1.container_Name := name;
     v1.State := {| v1.Waiting := None;
                    v1.Running := None;
                    v1.Terminated :=
                      Some {| v1.ExitCode := code; v1.Signal := signal;
                              v1.terminated_Reason := EmptyString |} |};
     v1.Ready := false;
     v1.RestartCount := 1 |}.

Definition mk_pod (deleted : option Z) (declared : list v1.Container)
    (phase why : string) (statuses : list v1.ContainerStatus) : v1.Pod :=
  {| v1.pod_Name := "proxy-0";
     v1.DeletionTimestamp := deleted;
     v1.Spec := {| v1.Containers := declared; v1.NodeName := "node-1" |};
     v1.Status := {| v1.Phase := phase; v1.Reason := why;
                     v1.ContainerStatuses := statuses |} |}.

Definition two_containers : list v1.Container :=
  [ {| v1.Name := "proxy"; v1.Image := "nginx" |};
    {| v1.Name := "sidecar"; v1.Image := "keepalived" |} ].

(** A pod that declares no container and has one observed container state,
    running and ready. *)
Definition pod_undeclared_container : v1.Pod :=
  mk_pod None [] "Running" EmptyString [running_ready "proxy"].

(** Two observed container states, both waiting, with different reasons. *)
Definition pod_two_waiting : v1.Pod :=
  mk_pod None two_containers "Pending" EmptyString
    [waiting_on "proxy" "ImagePullBackOff"; waiting_on "sidecar" "CrashLoopBackOff"].

(** A pod that declares no container and carries a deletion marker. *)
Definition pod_empty_deleted : v1.Pod :=
  mk_pod (Some 1509494400) [] "Running" EmptyString [].

(** The same pod as [pod_two_waiting] after its containers restarted. *)
Definition restarted (n : Z) (c : v1.ContainerStatus) : v1.ContainerStatus :=
  {| v1.container_Name := v1.container_Name c;
     v1.State := v1.State c;
     v1.Ready := v1.Ready c;
     v1.RestartCount := n |}.

Definition mk_lb (replicas : option Z) (names : list string) : lbapi.LoadBalancer :=
  {| lbapi.lb_Name := "lb";
     lbapi.Spec := {| lbapi.Nodes := {| lbapi.Replicas := replicas;
                                        lbapi.Names := names |} |} |}.

(** Aggregates to evaluate the comparators on: the aggregate-only fields
    are one replica counter, the kind-specific fields one string (the name
    of a deployment, a virtual IP). *)
Definition worker (name node : string) (ready : bool) : lbapi.PodStatus :=
  {| lbapi.Name := name; lbapi.Ready := ready; lbapi.NodeName := node;
     lbapi.ReadyContainers := 1; lbapi.TotalContainers := 1;
     lbapi.Reason := "Running" |}.

Definition aggregate (l : list lbapi.PodStatus) : lbapi.PodStatuses Z :=
  {| lbapi.counters := len l; lbapi.Statuses := l |}.

Definition proxy_of (l : list lbapi.PodStatus) : lbapi.ProxyStatus Z string :=
  {| lbapi.proxy_PodStatuses := aggregate l; lbapi.proxy_fields := "lb-proxy" |}.

Definition ipvsdr_of (l : list lbapi.PodStatus) : lbapi.IpvsdrProviderStatus Z string :=
  {| lbapi.ipvsdr_PodStatuses := aggregate l; lbapi.ipvsdr_fields := "10.0.0.1" |}.

(** ** package lb, the rest of the file *)

(** *** SortPodStatusByName *)

(** [s[i]] for an index of type [int]: outside the slice the program
    panics, which is [None] here. *)
Definition index {A : Type} (s : list A) (i : Z) : option A :=
  if bool_decide (0 <= i < len s) then s !! Z.to_nat i else None.

(** [s[i] = x], with the same panic. *)
Definition store {A : Type} (s : list A) (i : Z) (x : A) : option (list A) :=
  if bool_decide (0 <= i < len s) then Some (<[Z.to_nat i := x]> s) else None.

Definition SortPodStatusByName : Type := list lbapi.PodStatus.

Definition Len (s : SortPodStatusByName) : Z := len s.

(** [s[i].Name < s[j].Name]: Go compares strings byte by byte, as
    [String.ltb] does. *)
Definition Less (s : SortPodStatusByName) (i j : Z) : option bool :=
  match index s i, index s j with
  | Some si, Some sj => Some (String.ltb (lbapi.Name si) (lbapi.Name sj))
  | _, _ => None
  end.

(** [s[i], s[j] = s[j], s[i]]: both elements are read, then [s[i]] and
    [s[j]] are written, in this order.  The slice after the call is the
    result. *)
Definition Swap (s : SortPodStatusByName) (i j : Z) : option SortPodStatusByName :=
  match index s i, index s j with
  | Some si, Some sj =>
      match store s i sj with
      | Some s' => store s' j si
      | None => None
      end
  | _, _ => None
  end.

(** *** RandStringBytesRmndr *)

Definition letterBytes : string := "abcdefghijklmnopqrstuvwxyz1234567890".

(** [s[k]] on a string: the byte at [k], or a panic. *)
Definition byte_at (s : string) (k : Z) : option ascii :=
  if bool_decide (0 <= k < Z.of_nat (String.length s))
  then String.get (Z.to_nat k) s else None.

Section RandString.

(** The process-wide source of [math/rand]: [Seed z] is its state after
    [rand.Seed(z)], and [Int63] draws the next value, which is not
    negative, and gives the state after the draw. *)
Context {source : Type}.
Variable Seed : Z -> source.
Variable Int63 : source -> N * source.

(** Whether the runtime grants [make([]byte, n)] for a length [n] that is
    not negative: above its allocation limit [make] panics, and with the
    memory exhausted the program is aborted. *)
Variable can_make : Z -> bool.

(** [for i := 1; i < n; i++]: [k] iterations are left and the next one
    writes [b[i]]. *)
Fixpoint fill (k : nat) (i : Z) (b : list ascii) (src : source)
    : option (list ascii * source) :=
  match k with
  | O => Some (b, src)
  | S k' =>
      let '(r, src) := Int63 src in
      match byte_at letterBytes
              (Z.rem (Z.of_N r) (Z.of_nat (String.length letterBytes))) with
      | Some c =>
          match store b i c with
          | Some b => fill k' (i + 1) b src
          | None => None
          end
      | None => None
      end
  end.

(** [nanosecond] is what [time.Now().Nanosecond()] returns at the call.
    The result is the string and the state the source is left in; [None] is
    a panic ([make] with a negative length or one the runtime does not
    grant, [b[0]] on an empty slice). *)
Definition RandStringBytesRmndr (nanosecond : Z) (n : Z) : option (string * source) :=
  let src := Seed nanosecond in
  if Z.ltb n 0 || negb (can_make n) then None
  else
    let b := replicate (Z.to_nat n) Ascii.zero in
    let '(r, src) := Int63 src in
    match byte_at letterBytes (Z.rem (Z.of_N r) 26) with
    | Some c =>
        match store b 0 c with
        | Some b =>
            match fill (Z.to_nat (n - 1)) 1 b src with
            | Some (b, src) => Some (string_of_list_ascii b, src)
            | None => None
            end
        | None => None
        end
    | None => None
    end.

(** The first [k] values the source draws from [src], and the state after
    them. *)
Fixpoint draws (k : nat) (src : source) : list N :=
  match k with
  | O => []
  | S k' => let '(r, src) := Int63 src in r :: draws k' src
  end.

Fixpoint after_draws (k : nat) (src : source) : source :=
  match k with
  | O => src
  | S k' => after_draws k' (snd (Int63 src))
  end.

End RandString.

(** The byte written for a drawn value [r] reduced modulo [m], and the
    bytes written for a list of drawn values: the first modulo 26, the
    others modulo 36. *)
Definition letter (m : Z) (r : N) : ascii :=
  default Ascii.zero (byte_at letterBytes (Z.rem (Z.of_N r) m)).

Definition chars (rs : list N) : list ascii :=
  match rs with
  | [] => []
  | r :: rs => letter 26 r :: (letter 36 <$> rs)
  end.

(** A lowercase letter, a decimal digit. *)
Definition is_lower (c : ascii) : bool :=
  Nat.leb 97 (nat_of_ascii c) && Nat.leb (nat_of_ascii c) 122.

Definition is_digit (c : ascii) : bool :=
  Nat.leb 48 (nat_of_ascii c) && Nat.leb (nat_of_ascii c) 57.

(** A source to evaluate [RandStringBytesRmndr] on: a linear congruential
    generator of 63 bits. *)
Definition lcg_Seed (z : Z) : N := Z.to_N z.

Definition lcg_Int63 (x : N) : N * N :=
  let y := ((x * 6364136223846793005 + 1442695040888963407) mod 2 ^ 63)%N in (y, y).

(** A runtime that grants every allocation of up to 2^20 bytes. *)
Definition small_make (n : Z) : bool := Z.leb n (2 ^ 20).

(** Two workers of different names, in the order of their names and in the
    other order, and a pod under another name. *)
Definition two_workers : list lbapi.PodStatus :=
  [worker "proxy-0" "node-1" true; worker "proxy-1" "node-2" false].

Definition two_workers_swapped : list lbapi.PodStatus :=
  [worker "proxy-1" "node-2" false; worker "proxy-0" "node-1" true].

Definition rename_pod (name : string) (pod : v1.Pod) : v1.Pod :=
  {| v1.pod_Name := name;
     v1.DeletionTimestamp := v1.DeletionTimestamp pod;
     v1.Spec := v1.Spec pod;
     v1.Status := v1.Status pod |}.

(** *** The pointer arguments *)




(** *** Notions for the sort interface and the comparators *)

(** What [sort.Sort] leaves behind, in terms of [Less]: no element is less
    than the one before it. *)
Definition in_order (s : SortPodStatusByName) : Prop :=
  forall i : Z, 0 < i < Len s -> Less s i (i - 1) = Some false.

(** The order of [Less] on the elements themselves. *)
Definition name_lt (x y : lbapi.PodStatus) : Prop :=
  String.ltb (lbapi.Name x) (lbapi.Name y) = true.

(** ** The scan of ComputePodStatus *)

Lemma wrap_small (w z : Z) :
  0 < w -> - 2 ^ (w - 1) <= z < 2 ^ (w - 1) -> wrap w z = z.
Proof.
  intros Hw Hz. unfold wrap.
  assert (Hp : 2 ^ w = 2 * 2 ^ (w - 1)).
  { rewrite <- Z.pow_succ_r by lia. f_equal. lia. }
  rewrite Z.mod_small; lia.
Qed.

Lemma int_small (z : Z) : - 2 ^ 63 <= z <= max_int -> int z = z.
Proof. intros Hz. apply wrap_small; unfold max_int in *; simpl; lia. Qed.

Lemma int32_small (z : Z) : - 2 ^ 31 <= z <= max_int32 -> int32 z = z.
Proof. intros Hz. apply wrap_small; unfold max_int32 in *; simpl; lia. Qed.

(** The loop visits the slice from its last index down to index 0. *)
Lemma scan_take (l : list v1.ContainerStatus) (n : nat) (st : scan_state) :
  (n <= length l)%nat ->
  scan l n st = foldr (fun c s => scan_step s c) st (take n l).
Proof.
  revert st. induction n as [|i IH]; intros st Hn; simpl scan.
  - by rewrite take_0.
  - destruct (lookup_lt_is_Some_2 l i) as [c Hc]; [lia|].
    rewrite Hc, (take_S_r _ _ _ Hc), foldr_app. simpl.
    apply IH. lia.
Qed.

Lemma scan_foldr (l : list v1.ContainerStatus) (st : scan_state) :
  scan l (length l) st = foldr (fun c s => scan_step s c) st l.
Proof. rewrite scan_take by lia. by rewrite firstn_all. Qed.

Lemma scan_foldl_reverse (l : list v1.ContainerStatus) (st : scan_state) :
  scan l (length l) st = foldl scan_step st (reverse l).
Proof.
  rewrite scan_foldr. revert st.
  induction l as [|c l IH] using rev_ind; intros st; [done|].
  rewrite reverse_app, foldr_app. simpl. apply IH.
Qed.



Lemma scan_step_reason (st : scan_state) (c : v1.ContainerStatus) :
  reason (scan_step st c) = default (reason st) (container_reason c).
Proof.
  unfold scan_step, container_reason.
  destruct (v1.Waiting (v1.State c)) as [w|], (v1.Terminated (v1.State c)) as [t|];
    repeat case_match; reflexivity.
Qed.

Lemma scan_step_ready (st : scan_state) (c : v1.ContainerStatus) :
  readyContainers (scan_step st c)
  = if counts_ready c then int (readyContainers st + 1) else readyContainers st.
Proof.
  unfold counts_ready, scan_step, container_reason.
  destruct (v1.Waiting (v1.State c)) as [w|], (v1.Terminated (v1.State c)) as [t|];
    repeat case_match; simplify_eq/=; try reflexivity;
    repeat case_bool_decide; simplify_eq/=; try reflexivity; try congruence.
Qed.

Lemma count_ready_bounds (l : list v1.ContainerStatus) :
  0 <= count_ready l <= len l.
Proof.
  unfold count_ready, len. induction l as [|c l IH]; simpl; [lia|].
  destruct (counts_ready c); simpl length; lia.
Qed.

Lemma count_ready_cons (c : v1.ContainerStatus) (l : list v1.ContainerStatus) :
  count_ready (c :: l) = (if counts_ready c then 1 else 0) + count_ready l.
Proof.
  unfold count_ready, len. simpl. destruct (counts_ready c); simpl length; lia.
Qed.

Lemma count_ready_zero (l : list v1.ContainerStatus) :
  count_ready l = 0 <-> Forall (fun c => counts_ready c = false) l.
Proof.
  induction l as [|c l IH].
  - split; [constructor|reflexivity].
  - rewrite count_ready_cons, Forall_cons. pose proof (count_ready_bounds l).
    destruct (counts_ready c); split.
    + lia.
    + intros [? _]; discriminate.
    + intros Hz. split; [done|]. apply IH. lia.
    + intros [_ Hl]. apply IH in Hl. lia.
Qed.

Lemma foldr_scan_reason (l : list v1.ContainerStatus) (st : scan_state) :
  reason (foldr (fun c s => scan_step s c) st l)
  = default (reason st) (head (omap container_reason l)).
Proof.
  induction l as [|c l IH]; simpl; [done|].
  rewrite scan_step_reason. destruct (container_reason c); simpl; [done|apply IH].
Qed.

Lemma foldr_scan_ready (l : list v1.ContainerStatus) (st : scan_state) :
  0 <= readyContainers st ->
  readyContainers st + len l <= max_int ->
  readyContainers (foldr (fun c s => scan_step s c) st l)
  = readyContainers st + count_ready l.
Proof.
  intros H0. induction l as [|c l IH]; intros Hmax.
  - unfold count_ready, len. simpl. lia.
  - simpl foldr. rewrite scan_step_ready, count_ready_cons.
    pose proof (count_ready_bounds l) as Hb.
    assert (Hl : len (c :: l) = 1 + len l) by (unfold len; simpl length; lia).
    rewrite IH by lia.
    destruct (counts_ready c); [|lia].
    rewrite int_small; unfold max_int in *; lia.
Qed.

(** When no container is counted the counter is never incremented, whatever
    the length of the slice. *)
Lemma foldr_scan_ready_none (l : list v1.ContainerStatus) (st : scan_state) :
  Forall (fun c => counts_ready c = false) l ->
  readyContainers (foldr (fun c s => scan_step s c) st l) = readyContainers st.
Proof.
  induction 1 as [|c l Hc _ IH]; simpl; [done|].
  by rewrite scan_step_ready, Hc.
Qed.

(** The fields the deriver emits, in terms of the pod. *)
Lemma ComputePodStatus_Ready (pod : v1.Pod) :
  lbapi.Ready (ComputePodStatus pod)
  = match v1.DeletionTimestamp pod with
    | Some _ => false
    | None =>
        bool_decide
          (readyContainers
             (foldr (fun c s => scan_step s c)
                {| restarts := 0; readyContainers := 0; reason := initial_reason pod |}
                (v1.ContainerStatuses (v1.Status pod)))
           = len (v1.Containers (v1.Spec pod)))
    end.
Proof.
  unfold ComputePodStatus. rewrite scan_foldr. fold (initial_reason pod).
  destruct (v1.DeletionTimestamp pod); [|done].
  by destruct (String.eqb _ _).
Qed.

Lemma ComputePodStatus_Reason (pod : v1.Pod) :
  lbapi.Reason (ComputePodStatus pod)
  = match v1.DeletionTimestamp pod with
    | Some _ =>
        if String.eqb (v1.Reason (v1.Status pod)) NodeUnreachablePodReason
        then "Unknown" else "Terminating"
    | None =>
        default (initial_reason pod)
          (head (omap container_reason (v1.ContainerStatuses (v1.Status pod))))
    end.
Proof.
  unfold ComputePodStatus. rewrite scan_foldr. fold (initial_reason pod).
  destruct (v1.DeletionTimestamp pod).
  - by destruct (String.eqb _ _).
  - simpl. by rewrite foldr_scan_reason.
Qed.

Lemma ComputePodStatus_counts (pod : v1.Pod) :
  lbapi.ReadyContainers (ComputePodStatus pod)
  = int32 (readyContainers
             (foldr (fun c s => scan_step s c)
                {| restarts := 0; readyContainers := 0; reason := initial_reason pod |}
                (v1.ContainerStatuses (v1.Status pod))))
  /\ lbapi.TotalContainers (ComputePodStatus pod)
     = int32 (len (v1.Containers (v1.Spec pod))).
Proof.
  unfold ComputePodStatus. rewrite scan_foldr. fold (initial_reason pod).
  destruct (v1.DeletionTimestamp pod); [|done].
  by destruct (String.eqb _ _).
Qed.

(** ** Properties of ComputePodStatus *)

(** The spec's end-to-end example: two declared containers, one waiting on
    an image pull and one running and ready. *)
Example ComputePodStatus_image_pull :
  ComputePodStatus
    (mk_pod None two_containers "Pending" EmptyString
       [waiting_on "proxy" "ImagePullBackOff"; running_ready "sidecar"])
  = {| lbapi.Name := "proxy-0"; lbapi.Ready := false; lbapi.NodeName := "node-1";
       lbapi.ReadyContainers := 1; lbapi.TotalContainers := 2;
       lbapi.Reason := "ImagePullBackOff" |}.
Proof. vm_compute. reflexivity. Qed.

(** A container terminated without a reason shows its signal, or its exit
    code when there is no signal. *)
Example ComputePodStatus_signal :
  lbapi.Reason (ComputePodStatus
    (mk_pod None two_containers "Running" EmptyString
       [terminated_by "proxy" 9 137; running_ready "sidecar"])) = "Signal:9"
  /\ lbapi.Reason (ComputePodStatus
       (mk_pod None two_containers "Running" EmptyString
          [terminated_by "proxy" 0 137; running_ready "sidecar"])) = "ExitCode:137"
  /\ lbapi.Reason (ComputePodStatus
       (mk_pod None two_containers "Running" EmptyString
          [terminated_by "proxy" 0 (-1); running_ready "sidecar"])) = "ExitCode:-1".
Proof. vm_compute. repeat split. Qed.

(** C1, as stated, fails: the deriver counts ready containers over the
    observed container states and never compares the count with the number
    of declared containers; on a pod with no declared container and one
    observed container state, running and ready, ReadyContainers is 1 and
    TotalContainers is 0. *)
Lemma ComputePodStatus_ready_above_total :
  ~ (forall pod : v1.Pod,
       lbapi.ReadyContainers (ComputePodStatus pod)
       <= lbapi.TotalContainers (ComputePodStatus pod)).
Proof.
  intros H. specialize (H pod_undeclared_container).
  vm_compute in H. by apply H.
Qed.

(** C1, amended: for every pod that has no more observed container states
    than declared containers, and whose number of declared containers an
    int32 holds, the status returned satisfies
    0 <= ReadyContainers <= TotalContainers, where ReadyContainers is the
    number of observed states counted as ready and TotalContainers the
    number of declared containers. *)
Theorem ComputePodStatus_ready_le_total (pod : v1.Pod) :
  len (v1.ContainerStatuses (v1.Status pod)) <= len (v1.Containers (v1.Spec pod)) ->
  len (v1.Containers (v1.Spec pod)) <= max_int32 ->
  lbapi.ReadyContainers (ComputePodStatus pod)
    = count_ready (v1.ContainerStatuses (v1.Status pod))
  /\ lbapi.TotalContainers (ComputePodStatus pod) = len (v1.Containers (v1.Spec pod))
  /\ 0 <= lbapi.ReadyContainers (ComputePodStatus pod)
       <= lbapi.TotalContainers (ComputePodStatus pod).
Proof.
  intros Hle Hmax.
  destruct (ComputePodStatus_counts pod) as [-> ->].
  pose proof (count_ready_bounds (v1.ContainerStatuses (v1.Status pod))) as Hb.
  assert (H0 : 0 <= len (v1.ContainerStatuses (v1.Status pod))) by (unfold len; lia).
  rewrite foldr_scan_ready; simpl readyContainers;
    [|lia|unfold max_int, max_int32 in *; lia].
  rewrite !int32_small; unfold max_int32 in *; lia.
Qed.

Lemma ComputePodStatus_ready_le_total_witness :
  len (v1.ContainerStatuses (v1.Status
        (mk_pod None two_containers "Pending" EmptyString
           [waiting_on "proxy" "ImagePullBackOff"; running_ready "sidecar"])))
    <= len two_containers
  /\ len two_containers <= max_int32
  /\ 0 <= lbapi.ReadyContainers (ComputePodStatus
        (mk_pod None two_containers "Pending" EmptyString
           [waiting_on "proxy" "ImagePullBackOff"; running_ready "sidecar"]))
       <= lbapi.TotalContainers (ComputePodStatus
        (mk_pod None two_containers "Pending" EmptyString
           [waiting_on "proxy" "ImagePullBackOff"; running_ready "sidecar"])).
Proof.
  split; [|split].
  - vm_compute. discriminate.
  - vm_compute. discriminate.
  - apply (ComputePodStatus_ready_le_total
             (mk_pod None two_containers "Pending" EmptyString
                [waiting_on "proxy" "ImagePullBackOff"; running_ready "sidecar"])).
    + vm_compute. discriminate.
    + vm_compute. discriminate.
Defined.

(** C2, as stated, fails: the loop runs from the last index of the observed
    list down to index 0, so of two waiting containers the one at index 0
    is visited last and its reason is the one emitted, not the reason of
    the container later in the observed list. *)
Lemma ComputePodStatus_later_container_loses :
  ~ later_container_wins pod_two_waiting.
Proof.
  intros H. specialize (H "CrashLoopBackOff" eq_refl).
  vm_compute in H. discriminate H.
Qed.

(** C2, amended: the scan visits the container states in the reverse of the
    observed order, from the last index down to index 0, and for a pod
    without deletion marker the emitted Reason is the reason set by the
    first container in observed order that sets one (the last such container
    the scan visits), or the reason held before the scan when no container
    sets one. *)
Theorem ComputePodStatus_reason_scan_order (pod : v1.Pod) :
  v1.DeletionTimestamp pod = None ->
  (forall st,
     scan (v1.ContainerStatuses (v1.Status pod))
          (length (v1.ContainerStatuses (v1.Status pod))) st
     = foldl scan_step st (reverse (v1.ContainerStatuses (v1.Status pod))))
  /\ lbapi.Reason (ComputePodStatus pod)
     = default (initial_reason pod)
         (head (omap container_reason (v1.ContainerStatuses (v1.Status pod)))).
Proof.
  intros Hdel. split.
  - intros st. apply scan_foldl_reverse.
  - by rewrite ComputePodStatus_Reason, Hdel.
Qed.

Lemma ComputePodStatus_reason_scan_order_witness :
  v1.DeletionTimestamp pod_two_waiting = None
  /\ lbapi.Reason (ComputePodStatus pod_two_waiting)
     = default (initial_reason pod_two_waiting)
         (head (omap container_reason
                  (v1.ContainerStatuses (v1.Status pod_two_waiting)))).
Proof.
  split; [reflexivity|].
  apply (ComputePodStatus_reason_scan_order pod_two_waiting). reflexivity.
Defined.

(** C3, as stated, fails: a deletion marker forces Ready to false, also on a
    pod that declares no container. *)
Lemma ComputePodStatus_zero_containers_not_ready :
  ~ (forall pod : v1.Pod,
       v1.Containers (v1.Spec pod) = [] ->
       lbapi.Ready (ComputePodStatus pod) = true).
Proof.
  intros H. specialize (H pod_empty_deleted eq_refl).
  vm_compute in H. discriminate H.
Qed.

(** C3, amended: for every pod that declares zero containers, Ready is true
    exactly when the pod carries no deletion marker and none of its observed
    container states is counted as ready.  ("Only when" has the side
    condition, met by every Go slice, that an int counts the observed
    states.) *)
Theorem ComputePodStatus_zero_containers (pod : v1.Pod) :
  v1.Containers (v1.Spec pod) = [] ->
  (v1.DeletionTimestamp pod = None ->
   Forall (fun c => counts_ready c = false) (v1.ContainerStatuses (v1.Status pod)) ->
   lbapi.Ready (ComputePodStatus pod) = true)
  /\ (len (v1.ContainerStatuses (v1.Status pod)) <= max_int ->
      lbapi.Ready (ComputePodStatus pod) = true ->
      v1.DeletionTimestamp pod = None
      /\ Forall (fun c => counts_ready c = false)
           (v1.ContainerStatuses (v1.Status pod))).
Proof.
  intros Hnil. rewrite ComputePodStatus_Ready, Hnil. split.
  - intros -> Hnone. rewrite foldr_scan_ready_none by done.
    by apply bool_decide_eq_true.
  - intros Hmax. rewrite foldr_scan_ready by (simpl readyContainers; lia).
    simpl readyContainers. rewrite <- count_ready_zero.
    destruct (v1.DeletionTimestamp pod); [discriminate|].
    rewrite bool_decide_eq_true. unfold len. simpl length.
    intros H. split; [done|lia].
Qed.

Lemma ComputePodStatus_zero_containers_witness :
  v1.Containers (v1.Spec (mk_pod None [] "Running" EmptyString [])) = []
  /\ lbapi.Ready (ComputePodStatus (mk_pod None [] "Running" EmptyString [])) = true.
Proof.
  split; [reflexivity|].
  apply (ComputePodStatus_zero_containers (mk_pod None [] "Running" EmptyString [])
           eq_refl).
  - reflexivity.
  - constructor.
Defined.

(** C4: for every pod that carries a deletion marker, whatever its phase and
    its container states, the status returned has Ready = false, and its
    Reason is "Unknown" if and only if the pod's own status reason is
    NodeUnreachablePodReason ("NodeLost"), and "Terminating" otherwise. *)
Theorem ComputePodStatus_deletion_override (pod : v1.Pod) :
  v1.DeletionTimestamp pod <> None ->
  NodeUnreachablePodReason = "NodeLost"
  /\ lbapi.Ready (ComputePodStatus pod) = false
  /\ (lbapi.Reason (ComputePodStatus pod) = "Unknown"
      <-> v1.Reason (v1.Status pod) = NodeUnreachablePodReason)
  /\ (v1.Reason (v1.Status pod) <> NodeUnreachablePodReason ->
      lbapi.Reason (ComputePodStatus pod) = "Terminating").
Proof.
  intros Hdel. split; [reflexivity|].
  rewrite ComputePodStatus_Ready, ComputePodStatus_Reason.
  destruct (v1.DeletionTimestamp pod) as [t|]; [|done].
  split; [reflexivity|].
  destruct (String.eqb_spec (v1.Reason (v1.Status pod)) NodeUnreachablePodReason);
    split; naive_solver.
Qed.

Lemma ComputePodStatus_deletion_override_witness :
  v1.DeletionTimestamp
    (mk_pod (Some 1509494400) two_containers "Running" "NodeLost"
       [running_ready "proxy"; running_ready "sidecar"]) <> None
  /\ lbapi.Ready (ComputePodStatus
       (mk_pod (Some 1509494400) two_containers "Running" "NodeLost"
          [running_ready "proxy"; running_ready "sidecar"])) = false.
Proof.
  split; [discriminate|].
  apply (ComputePodStatus_deletion_override
           (mk_pod (Some 1509494400) two_containers "Running" "NodeLost"
              [running_ready "proxy"; running_ready "sidecar"])).
  discriminate.
Defined.

(** The fields of the loop state that reach the output do not depend on the
    restart counts, neither on those summed so far nor on the one of the
    container visited. *)
Lemma scan_step_restarts (st st' : scan_state) (c d : v1.ContainerStatus) :
  same_but_restarts c d ->
  readyContainers st = readyContainers st' ->
  reason st = reason st' ->
  readyContainers (scan_step st c) = readyContainers (scan_step st' d)
  /\ reason (scan_step st c) = reason (scan_step st' d).
Proof.
  intros (_ & Hstate & Hready) Hrc Hr.
  assert (Hcr : container_reason c = container_reason d)
    by (unfold container_reason; by rewrite Hstate).
  assert (Hcnt : counts_ready c = counts_ready d)
    by (unfold counts_ready; by rewrite Hcr, Hstate, Hready).
  by rewrite !scan_step_ready, !scan_step_reason, Hcr, Hcnt, Hrc, Hr.
Qed.

Lemma foldr_scan_restarts (st st' : scan_state) (l l' : list v1.ContainerStatus) :
  Forall2 same_but_restarts l l' ->
  readyContainers st = readyContainers st' ->
  reason st = reason st' ->
  readyContainers (foldr (fun c s => scan_step s c) st l)
    = readyContainers (foldr (fun c s => scan_step s c) st' l')
  /\ reason (foldr (fun c s => scan_step s c) st l)
     = reason (foldr (fun c s => scan_step s c) st' l').
Proof.
  intros Hl Hrc Hr. induction Hl as [|c d l l' Hcd _ IH]; simpl; [done|].
  destruct IH as [IH1 IH2]. by apply scan_step_restarts.
Qed.

(** C10: two pods that differ only in the RestartCount values of their
    container states get the same status: the sum of restarts the scan
    accumulates reaches no emitted field. *)
Theorem ComputePodStatus_ignores_restarts (p q : v1.Pod) :
  differ_only_in_restarts p q ->
  ComputePodStatus p = ComputePodStatus q.
Proof.
  intros (Hname & Hdel & Hspec & Hphase & Hreason & Hl).
  unfold ComputePodStatus. rewrite !scan_foldr.
  rewrite <- Hname, <- Hdel, <- Hspec, <- Hphase, <- Hreason.
  match goal with
  | |- context [foldr _ ?s (v1.ContainerStatuses (v1.Status p))] =>
      destruct (foldr_scan_restarts s s _ _ Hl eq_refl eq_refl) as [-> ->]
  end.
  reflexivity.
Qed.

Lemma ComputePodStatus_ignores_restarts_witness :
  differ_only_in_restarts
    (mk_pod None two_containers "Running" EmptyString
       [running_ready "proxy"; waiting_on "sidecar" "CrashLoopBackOff"])
    (mk_pod None two_containers "Running" EmptyString
       [restarted 3 (running_ready "proxy");
        restarted 41 (waiting_on "sidecar" "CrashLoopBackOff")])
  /\ ComputePodStatus
       (mk_pod None two_containers "Running" EmptyString
          [running_ready "proxy"; waiting_on "sidecar" "CrashLoopBackOff"])
     = ComputePodStatus
         (mk_pod None two_containers "Running" EmptyString
            [restarted 3 (running_ready "proxy");
             restarted 41 (waiting_on "sidecar" "CrashLoopBackOff")]).
Proof.
  assert (H : differ_only_in_restarts
    (mk_pod None two_containers "Running" EmptyString
       [running_ready "proxy"; waiting_on "sidecar" "CrashLoopBackOff"])
    (mk_pod None two_containers "Running" EmptyString
       [restarted 3 (running_ready "proxy");
        restarted 41 (waiting_on "sidecar" "CrashLoopBackOff")])).
  { repeat split; repeat constructor. }
  split; [exact H|].
  exact (ComputePodStatus_ignores_restarts _ _ H).
Defined.

(** ** CalculateReplicas *)

Lemma len_zero {A : Type} (l : list A) : len l = 0 <-> l = [].
Proof. unfold len. destruct l; simpl length; split; intros; (done || lia). Qed.

(** C9: without explicit node names the policy returns the declared count
    (0 when there is none) and no node affinity; with explicit node names it
    returns their number, as the int32 it is converted to, and node
    affinity; node affinity is asked for exactly when there are explicit
    node names.  The two examples of the spec are the last two lines. *)
Theorem CalculateReplicas_spec (lb : lbapi.LoadBalancer) :
  let nodes := lbapi.Nodes (lbapi.Spec lb) in
  (lbapi.Names nodes = [] ->
     CalculateReplicas lb = (default 0 (lbapi.Replicas nodes), false))
  /\ (lbapi.Names nodes <> [] ->
        CalculateReplicas lb = (int32 (len (lbapi.Names nodes)), true))
  /\ (lbapi.Names nodes <> [] -> len (lbapi.Names nodes) <= max_int32 ->
        CalculateReplicas lb = (len (lbapi.Names nodes), true))
  /\ (snd (CalculateReplicas lb) = true <-> lbapi.Names nodes <> [])
  /\ CalculateReplicas (mk_lb (Some 3) []) = (3, false)
  /\ CalculateReplicas (mk_lb (Some 3) ["a"; "b"]) = (2, true).
Proof.
  intros nodes. unfold CalculateReplicas. fold nodes.
  pose proof (len_zero (lbapi.Names nodes)) as Hz.
  destruct (Z.eqb_spec (len (lbapi.Names nodes)) 0) as [He|Hne]; simpl negb; cbv iota.
  - apply Hz in He as Hnil.
    repeat split; try done; try (intros; by destruct (lbapi.Replicas nodes)).
  - assert (Hnn : lbapi.Names nodes <> []) by (intros Hn; by apply Hne, Hz).
    repeat split; try done.
    intros _ Hmax. rewrite int32_small; [done|].
    unfold len in *. lia.
Qed.

(** ** SplitNamespaceAndNameByDot *)









(** ** The comparators *)

Lemma field_change_spec (w w' : lbapi.PodStatus) :
  field_change w w' -> lbapi.Name w' = lbapi.Name w /\ w' <> w.
Proof.
  destruct w. intros [r Hr|r Hr|n Hn]; simpl in *; (split; [done|congruence]).
Qed.

Lemma DeepEqual_true {A : Type} `{EqDecision A} (x y : A) :
  DeepEqual x y = true <-> x = y.
Proof. unfold DeepEqual. apply bool_decide_eq_true. Qed.

Lemma DeepEqual_refl {A : Type} `{EqDecision A} (x : A) : DeepEqual x x = true.
Proof. by apply DeepEqual_true. Qed.

(** A worker with an equal match is in the list searched. *)
Lemma match_by_name_elem (w : lbapi.PodStatus) (l : list lbapi.PodStatus) :
  match_by_name w l = true -> w ∈ l.
Proof.
  induction l as [|bs l IH]; simpl; [done|].
  destruct (String.eqb_spec (lbapi.Name w) (lbapi.Name bs)).
  - intros ->%DeepEqual_true. apply elem_of_cons. by left.
  - intros H. apply elem_of_cons. right. by apply IH.
Qed.

(** With unique names the first worker of the name is the only one. *)
Lemma match_by_name_unique (w : lbapi.PodStatus) (l : list lbapi.PodStatus) :
  NoDup (names l) -> w ∈ l -> match_by_name w l = true.
Proof.
  unfold names. induction l as [|bs l IH].
  - intros _ H. by apply elem_of_nil in H.
  - rewrite fmap_cons, NoDup_cons. intros [Hbs Hl] [->|Hw]%elem_of_cons; simpl.
    + rewrite String.eqb_refl. apply DeepEqual_refl.
    + destruct (String.eqb_spec (lbapi.Name w) (lbapi.Name bs)) as [He|_].
      * exfalso. apply Hbs. rewrite <- He. by apply list_elem_of_fmap_2.
      * by apply IH.
Qed.

(** Two workers of one name that both have an equal match are equal: the
    same worker of the list decides for both. *)
Lemma match_by_name_first (w w' : lbapi.PodStatus) (l : list lbapi.PodStatus) :
  lbapi.Name w' = lbapi.Name w ->
  match_by_name w l = true -> match_by_name w' l = true -> w' = w.
Proof.
  intros Hn. induction l as [|bs l IH]; simpl; [done|]. rewrite Hn.
  destruct (String.eqb (lbapi.Name w) (lbapi.Name bs)); [|done].
  intros ->%DeepEqual_true ->%DeepEqual_true. done.
Qed.

Lemma all_matched_Forall (a b : list lbapi.PodStatus) :
  all_matched a b = true <-> Forall (fun w => match_by_name w b = true) a.
Proof.
  induction a as [|w a IH]; simpl.
  - split; [constructor|done].
  - rewrite Forall_cons, <- IH. destruct (match_by_name w b); simpl; [tauto|].
    split; [discriminate | intros [? _]; discriminate].
Qed.

Lemma bool_eq_iff (x y : bool) : (x = true <-> y = true) -> x = y.
Proof. destruct x, y; intros [H1 H2]; try done; [by rewrite H1|by rewrite H2]. Qed.

Lemma match_by_name_perm (w : lbapi.PodStatus) (b b' : list lbapi.PodStatus) :
  NoDup (names b) -> b ≡ₚ b' -> match_by_name w b = match_by_name w b'.
Proof.
  intros Hnd Hp. apply bool_eq_iff.
  assert (Hnd' : NoDup (names b')) by (unfold names in *; by rewrite <- Hp).
  split; intros H%match_by_name_elem; apply match_by_name_unique; try done.
  - by rewrite <- Hp.
  - by rewrite Hp.
Qed.

Lemma all_matched_perm_l (a a' b : list lbapi.PodStatus) :
  a ≡ₚ a' -> all_matched a b = all_matched a' b.
Proof.
  intros Hp. apply bool_eq_iff. rewrite !all_matched_Forall. by rewrite Hp.
Qed.

Lemma all_matched_perm_r (a b b' : list lbapi.PodStatus) :
  NoDup (names b) -> b ≡ₚ b' -> all_matched a b = all_matched a b'.
Proof.
  intros Hnd Hp. induction a as [|w a IH]; simpl; [done|].
  by rewrite IH, (match_by_name_perm w b b').
Qed.

(** Under unique names of [a], lists the comparator matches are
    permutations of each other. *)
Lemma all_matched_Permutation (a b : list lbapi.PodStatus) :
  NoDup (names a) -> length a = length b -> all_matched a b = true -> a ≡ₚ b.
Proof.
  intros Hnd Hlen Hm. apply submseteq_length_Permutation; [|lia].
  apply NoDup_submseteq; [by apply (NoDup_fmap_1 lbapi.Name)|].
  rewrite all_matched_Forall, Forall_forall in Hm.
  intros w Hw. by apply match_by_name_elem, Hm.
Qed.

Section ComparatorProperties.

Context {C F G : Type}.
Context `{EqDecision C, EqDecision F, EqDecision G, Inhabited C}.

Implicit Types a b : lbapi.PodStatuses C.

Lemma PodStatusesEqual_true a b :
  PodStatusesEqual a b = true
  <-> length (lbapi.Statuses a) = length (lbapi.Statuses b)
      /\ lbapi.counters a = lbapi.counters b
      /\ all_matched (lbapi.Statuses a) (lbapi.Statuses b) = true.
Proof.
  unfold PodStatusesEqual, len.
  destruct (Z.eqb_spec (Z.of_nat (length (lbapi.Statuses a)))
              (Z.of_nat (length (lbapi.Statuses b)))) as [He|Hne];
    simpl negb; cbv iota.
  - unfold DeepEqual. case_bool_decide as Hc; simpl negb; cbv iota.
    + injection Hc as Hc. split; [intros ?; split; [lia|done] | by intros (_ & _ & ?)].
    + split; [done|]. intros (_ & Hc' & _). destruct Hc. by rewrite Hc'.
  - split; [done|]. intros (Hl & _). lia.
Qed.

(** The comparator reads the list of [a] through a conjunction over its
    workers and the list of [b] through searches by name. *)
Lemma PodStatusesEqual_eq a a' b b' :
  length (lbapi.Statuses a) = length (lbapi.Statuses a') ->
  length (lbapi.Statuses b) = length (lbapi.Statuses b') ->
  lbapi.counters a = lbapi.counters a' ->
  lbapi.counters b = lbapi.counters b' ->
  all_matched (lbapi.Statuses a) (lbapi.Statuses b)
  = all_matched (lbapi.Statuses a') (lbapi.Statuses b') ->
  PodStatusesEqual a b = PodStatusesEqual a' b'.
Proof.
  intros Hla Hlb Hca Hcb Hm. apply bool_eq_iff.
  rewrite !PodStatusesEqual_true, Hla, Hlb, Hca, Hcb, Hm. done.
Qed.

Lemma ProxyStatusEqual_true a b (fa fb : F) :
  ProxyStatusEqual (mk_proxy a fa) (mk_proxy b fb) = true
  <-> PodStatusesEqual a b = true /\ fa = fb.
Proof.
  unfold ProxyStatusEqual, mk_proxy; simpl.
  destruct (PodStatusesEqual a b); simpl;
    [|split; [done | intros [? _]; done]].
  rewrite DeepEqual_true. split; [intros [=]; done | intros [_ ->]; done].
Qed.

Lemma IpvsdrProviderStatusEqual_true a b (ga gb : G) :
  IpvsdrProviderStatusEqual (mk_ipvsdr a ga) (mk_ipvsdr b gb) = true
  <-> PodStatusesEqual a b = true /\ ga = gb.
Proof.
  unfold IpvsdrProviderStatusEqual, mk_ipvsdr; simpl.
  destruct (PodStatusesEqual a b); simpl;
    [|split; [done | intros [? _]; done]].
  rewrite DeepEqual_true. split; [intros [=]; done | intros [_ ->]; done].
Qed.

(** C5: when no two workers of [a] share a name, and no two workers of
    [b], permuting the list of workers of [a] changes the result of no
    comparator, neither with [a] as the first argument against a fixed [b]
    nor with [a] as the second argument. *)
Theorem PodStatusesEqual_permutation a a' b :
  NoDup (names (lbapi.Statuses a)) ->
  NoDup (names (lbapi.Statuses b)) ->
  lbapi.counters a' = lbapi.counters a ->
  lbapi.Statuses a' ≡ₚ lbapi.Statuses a ->
  (PodStatusesEqual a' b = PodStatusesEqual a b
   /\ PodStatusesEqual b a' = PodStatusesEqual b a)
  /\ (forall fa fb : F,
        ProxyStatusEqual (mk_proxy a' fa) (mk_proxy b fb)
        = ProxyStatusEqual (mk_proxy a fa) (mk_proxy b fb)
        /\ ProxyStatusEqual (mk_proxy b fb) (mk_proxy a' fa)
           = ProxyStatusEqual (mk_proxy b fb) (mk_proxy a fa))
  /\ (forall ga gb : G,
        IpvsdrProviderStatusEqual (mk_ipvsdr a' ga) (mk_ipvsdr b gb)
        = IpvsdrProviderStatusEqual (mk_ipvsdr a ga) (mk_ipvsdr b gb)
        /\ IpvsdrProviderStatusEqual (mk_ipvsdr b gb) (mk_ipvsdr a' ga)
           = IpvsdrProviderStatusEqual (mk_ipvsdr b gb) (mk_ipvsdr a ga)).
Proof.
  intros Ha Hb Hc Hp.
  assert (Hlen : length (lbapi.Statuses a') = length (lbapi.Statuses a))
    by (by rewrite Hp).
  assert (H1 : PodStatusesEqual a' b = PodStatusesEqual a b).
  { apply PodStatusesEqual_eq; try done. by apply all_matched_perm_l. }
  assert (H2 : PodStatusesEqual b a' = PodStatusesEqual b a).
  { apply PodStatusesEqual_eq; try done. symmetry.
    by apply all_matched_perm_r. }
  split; [done|].
  split; intros x y; split; apply bool_eq_iff;
    rewrite ?ProxyStatusEqual_true, ?IpvsdrProviderStatusEqual_true, ?H1, ?H2;
    done.
Qed.

(** The comparators judge an aggregate equal to itself. *)
Lemma PodStatusesEqual_refl a :
  NoDup (names (lbapi.Statuses a)) -> PodStatusesEqual a a = true.
Proof.
  intros Hnd. apply PodStatusesEqual_true. repeat split.
  apply all_matched_Forall, Forall_forall. intros w Hw.
  by apply match_by_name_unique.
Qed.

(** The comparator notices a change in its first argument. *)
Lemma PodStatusesEqual_change_l a b (i : nat) (w w' : lbapi.PodStatus) :
  PodStatusesEqual a b = true ->
  lbapi.Name w' = lbapi.Name w -> w' <> w ->
  lbapi.Statuses a !! i = Some w ->
  PodStatusesEqual (with_Statuses (<[i:=w']> (lbapi.Statuses a)) a) b = false.
Proof.
  intros (_ & _ & Hm)%PodStatusesEqual_true Hn Hne Hi.
  apply not_true_is_false. intros (_ & _ & Hm')%PodStatusesEqual_true.
  simpl in Hm'. rewrite all_matched_Forall, Forall_forall in Hm, Hm'.
  apply Hne, (match_by_name_first w w' (lbapi.Statuses b)); [done| |].
  - apply Hm. by eapply list_elem_of_lookup_2.
  - apply Hm'. apply list_elem_of_insert. by eapply lookup_lt_Some.
Qed.

(** The comparator notices a change in its second argument when the names
    of the first are unique: every worker of the second is then the match
    of a worker of the first. *)
Lemma PodStatusesEqual_change_r a b (i : nat) (w w' : lbapi.PodStatus) :
  NoDup (names (lbapi.Statuses a)) ->
  PodStatusesEqual a b = true ->
  lbapi.Name w' = lbapi.Name w -> w' <> w ->
  lbapi.Statuses b !! i = Some w ->
  PodStatusesEqual a (with_Statuses (<[i:=w']> (lbapi.Statuses b)) b) = false.
Proof.
  intros Hnd (Hlen & _ & Hm)%PodStatusesEqual_true Hn Hne Hi.
  pose proof (all_matched_Permutation _ _ Hnd Hlen Hm) as Hp.
  apply not_true_is_false. intros (_ & _ & Hm')%PodStatusesEqual_true.
  simpl in Hm'. rewrite all_matched_Forall, Forall_forall in Hm'.
  assert (Hnd' : NoDup (names (<[i:=w']> (lbapi.Statuses b)))).
  { unfold names in *. rewrite list_fmap_insert, Hn, list_insert_id.
    - by rewrite <- Hp.
    - by rewrite list_lookup_fmap, Hi. }
  apply Hne, (match_by_name_first w w' (<[i:=w']> (lbapi.Statuses b))); [done| |].
  - apply Hm'. rewrite Hp. by eapply list_elem_of_lookup_2.
  - apply match_by_name_unique; [done|].
    apply list_elem_of_insert. by eapply lookup_lt_Some.
Qed.

(** C6: for aggregates [a] and [b] that the comparator judges equal,
    changing the Ready, Reason or NodeName field of one worker, of [a] or of
    [b], everything else kept, makes the comparator return false; so for the
    comparators of the two aggregate kinds around [a] and [b].  The
    hypothesis is the invariant of the data model, no two workers of one
    aggregate share a name, asked of [a] only: [b], judged equal to [a], then
    meets it too.  (A change in [a] is noticed without it,
    [PodStatusesEqual_change_l].) *)
Theorem PodStatusesEqual_detects_change a b :
  NoDup (names (lbapi.Statuses a)) ->
  change_detected PodStatusesEqual a b
  /\ (forall fa fb : F,
        change_detected
          (fun x y => ProxyStatusEqual (mk_proxy x fa) (mk_proxy y fb)) a b)
  /\ (forall ga gb : G,
        change_detected
          (fun x y => IpvsdrProviderStatusEqual (mk_ipvsdr x ga) (mk_ipvsdr y gb))
          a b).
Proof.
  intros Hnd.
  assert (Hpod : change_detected PodStatusesEqual a b).
  { intros Heq i w w' [Hn Hne]%field_change_spec. split; intros Hi.
    - by apply (PodStatusesEqual_change_l a b i w w').
    - by apply (PodStatusesEqual_change_r a b i w w'). }
  split; [done|].
  split; intros x y Heq i w w' Hch.
  - apply ProxyStatusEqual_true in Heq as [Heq _].
    destruct (Hpod Heq i w w' Hch) as [Hl Hr].
    split; intros Hi; apply not_true_is_false;
      intros [Heq' _]%ProxyStatusEqual_true; [rewrite Hl in Heq'|rewrite Hr in Heq'];
      done.
  - apply IpvsdrProviderStatusEqual_true in Heq as [Heq _].
    destruct (Hpod Heq i w w' Hch) as [Hl Hr].
    split; intros Hi; apply not_true_is_false;
      intros [Heq' _]%IpvsdrProviderStatusEqual_true;
      [rewrite Hl in Heq'|rewrite Hr in Heq']; done.
Qed.

(** C7: for every aggregate, of either kind, the comparator applied to the
    aggregate and itself returns true.  The hypothesis is the invariant of
    the data model: no two workers of the aggregate share a name. *)
Theorem comparators_reflexive a :
  NoDup (names (lbapi.Statuses a)) ->
  PodStatusesEqual a a = true
  /\ (forall f : F, ProxyStatusEqual (mk_proxy a f) (mk_proxy a f) = true)
  /\ (forall g : G,
        IpvsdrProviderStatusEqual (mk_ipvsdr a g) (mk_ipvsdr a g) = true).
Proof.
  intros Hnd. pose proof (PodStatusesEqual_refl a Hnd) as Hr.
  split; [done|]. split; intros x.
  - by apply ProxyStatusEqual_true.
  - by apply IpvsdrProviderStatusEqual_true.
Qed.

End ComparatorProperties.

Lemma PodStatusesEqual_permutation_witness :
  NoDup (names [worker "proxy-0" "node-1" true; worker "proxy-1" "node-2" false])
  /\ [worker "proxy-1" "node-2" false; worker "proxy-0" "node-1" true]
     ≡ₚ [worker "proxy-0" "node-1" true; worker "proxy-1" "node-2" false]
  /\ PodStatusesEqual
       (aggregate [worker "proxy-1" "node-2" false; worker "proxy-0" "node-1" true])
       (aggregate [worker "proxy-0" "node-1" true; worker "proxy-1" "node-2" false])
     = PodStatusesEqual
         (aggregate [worker "proxy-0" "node-1" true; worker "proxy-1" "node-2" false])
         (aggregate [worker "proxy-0" "node-1" true; worker "proxy-1" "node-2" false]).
Proof.
  assert (Hnd : NoDup (names [worker "proxy-0" "node-1" true;
                              worker "proxy-1" "node-2" false])).
  { apply (bool_decide_unpack _). vm_compute. exact I. }
  assert (Hp : [worker "proxy-1" "node-2" false; worker "proxy-0" "node-1" true]
               ≡ₚ [worker "proxy-0" "node-1" true; worker "proxy-1" "node-2" false])
    by apply Permutation_swap.
  split; [exact Hnd|]. split; [exact Hp|].
  apply (PodStatusesEqual_permutation (F:=string) (G:=string)
           (aggregate [worker "proxy-0" "node-1" true; worker "proxy-1" "node-2" false])
           (aggregate [worker "proxy-1" "node-2" false; worker "proxy-0" "node-1" true])
           (aggregate [worker "proxy-0" "node-1" true; worker "proxy-1" "node-2" false])
           Hnd Hnd eq_refl Hp).
Defined.

(** Outside the invariant of the data model the comparator can miss a
    change: where two workers of [a] carry one name, a worker of [b] can be
    the match of none of them, and the comparator, which judges the two
    lists equal, still does after the Ready field of that worker of [b]
    changes. *)
Lemma PodStatusesEqual_misses_change :
  ~ change_detected PodStatusesEqual
      (aggregate [worker "proxy-0" "node-1" true; worker "proxy-0" "node-1" true])
      (aggregate [worker "proxy-0" "node-1" true; worker "proxy-1" "node-2" true]).
Proof.
  intros H.
  assert (Heq : PodStatusesEqual
      (aggregate [worker "proxy-0" "node-1" true; worker "proxy-0" "node-1" true])
      (aggregate [worker "proxy-0" "node-1" true; worker "proxy-1" "node-2" true])
      = true) by (vm_compute; reflexivity).
  destruct (H Heq 1%nat (worker "proxy-1" "node-2" true) _
              (change_Ready (worker "proxy-1" "node-2" true) false
                 ltac:(discriminate))) as [_ Hb].
  specialize (Hb eq_refl). vm_compute in Hb. discriminate Hb.
Qed.

Lemma PodStatusesEqual_detects_change_witness :
  NoDup (names [worker "proxy-0" "node-1" true; worker "proxy-1" "node-2" true])
  /\ change_detected PodStatusesEqual
       (aggregate [worker "proxy-0" "node-1" true; worker "proxy-1" "node-2" true])
       (aggregate [worker "proxy-1" "node-2" true; worker "proxy-0" "node-1" true]).
Proof.
  assert (Hnd : NoDup (names [worker "proxy-0" "node-1" true;
                              worker "proxy-1" "node-2" true])).
  { apply (bool_decide_unpack _). vm_compute. exact I. }
  split; [exact Hnd|].
  apply (PodStatusesEqual_detects_change (F:=string) (G:=string)
           (aggregate [worker "proxy-0" "node-1" true; worker "proxy-1" "node-2" true])
           (aggregate [worker "proxy-1" "node-2" true; worker "proxy-0" "node-1" true])
           Hnd).
Defined.

(** Outside the invariant of the data model the comparators are not
    reflexive: where two workers of a list carry one name and differ in a
    field, the second is compared with the first. *)
Lemma comparators_not_reflexive :
  PodStatusesEqual
    (aggregate [worker "proxy-0" "node-1" true; worker "proxy-0" "node-1" false])
    (aggregate [worker "proxy-0" "node-1" true; worker "proxy-0" "node-1" false])
  = false
  /\ ProxyStatusEqual
       (proxy_of [worker "proxy-0" "node-1" true; worker "proxy-0" "node-1" false])
       (proxy_of [worker "proxy-0" "node-1" true; worker "proxy-0" "node-1" false])
     = false
  /\ IpvsdrProviderStatusEqual
       (ipvsdr_of [worker "proxy-0" "node-1" true; worker "proxy-0" "node-1" false])
       (ipvsdr_of [worker "proxy-0" "node-1" true; worker "proxy-0" "node-1" false])
     = false.
Proof. vm_compute. repeat split. Qed.

Lemma comparators_reflexive_witness :
  NoDup (names [worker "proxy-0" "node-1" true; worker "proxy-1" "node-2" false])
  /\ ProxyStatusEqual
       (proxy_of [worker "proxy-0" "node-1" true; worker "proxy-1" "node-2" false])
       (proxy_of [worker "proxy-0" "node-1" true; worker "proxy-1" "node-2" false])
     = true.
Proof.
  assert (Hnd : NoDup (names [worker "proxy-0" "node-1" true;
                              worker "proxy-1" "node-2" false])).
  { apply (bool_decide_unpack _). vm_compute. exact I. }
  split; [exact Hnd|].
  apply (comparators_reflexive (F:=string) (G:=string)
           (aggregate [worker "proxy-0" "node-1" true; worker "proxy-1" "node-2" false])
           Hnd).
Defined.

(** ** SortPodStatusByName *)

Lemma index_Some {A : Type} (s : list A) (i : Z) (x : A) :
  index s i = Some x <-> 0 <= i < len s /\ s !! Z.to_nat i = Some x.
Proof.
  unfold index. case_bool_decide as Hi; [tauto|].
  split; [done | intros [? _]; done].
Qed.

Lemma index_is_Some {A : Type} (s : list A) (i : Z) :
  is_Some (index s i) <-> 0 <= i < len s.
Proof.
  unfold index, len. case_bool_decide as Hi.
  - split; [done|]. intros _. apply lookup_lt_is_Some_2. unfold len in Hi. lia.
  - split; [by intros [? ?] | done].
Qed.

Lemma index_of_nat {A : Type} (s : list A) (n : nat) :
  index s (Z.of_nat n) = s !! n.
Proof.
  unfold index, len. rewrite Nat2Z.id. case_bool_decide as Hi; [done|].
  symmetry. apply lookup_ge_None. lia.
Qed.

Lemma store_Some {A : Type} (s s' : list A) (i : Z) (x : A) :
  store s i x = Some s' <-> 0 <= i < len s /\ s' = <[Z.to_nat i := x]> s.
Proof.
  unfold store. case_bool_decide as Hi.
  - split; [intros [= <-]; done | intros [_ ->]; done].
  - split; [done | intros [? _]; done].
Qed.

Lemma len_insert {A : Type} (s : list A) (n : nat) (x : A) :
  len (<[n := x]> s) = len s.
Proof. unfold len. by rewrite length_insert. Qed.

(** What a call of [Swap] that returns has done. *)
Lemma Swap_Some (s s' : list lbapi.PodStatus) (i j : Z) :
  Swap s i j = Some s'
  <-> exists si sj,
        0 <= i < len s /\ 0 <= j < len s
        /\ s !! Z.to_nat i = Some si /\ s !! Z.to_nat j = Some sj
        /\ s' = <[Z.to_nat j := si]> (<[Z.to_nat i := sj]> s).
Proof.
  unfold Swap. split.
  - destruct (index s i) as [si|] eqn:Hi; [|done].
    destruct (index s j) as [sj|] eqn:Hj; [|done].
    apply index_Some in Hi as [Hi Hsi]. apply index_Some in Hj as [Hj Hsj].
    destruct (store s i sj) as [s1|] eqn:H1; [|done].
    apply store_Some in H1 as [_ ->]. intros [_ ->]%store_Some.
    by exists si, sj.
  - intros (si & sj & Hi & Hj & Hsi & Hsj & ->).
    rewrite (proj2 (index_Some s i si)), (proj2 (index_Some s j sj)) by done.
    rewrite (proj2 (store_Some s _ i sj)) by done.
    apply store_Some. by rewrite len_insert.
Qed.

Lemma ltb_compare (x y : string) : String.ltb x y = true <-> String.compare x y = Lt.
Proof. unfold String.ltb. by destruct (String.compare x y). Qed.

Lemma ltb_leb (x y : string) : String.ltb x y = negb (String.leb y x).
Proof.
  unfold String.ltb, String.leb. rewrite (String.compare_antisym y x).
  by destruct (String.compare x y).
Qed.

Lemma ltb_irrefl (x : string) : String.ltb x x = false.
Proof.
  rewrite ltb_leb. assert (H : String.le x x) by reflexivity.
  unfold String.le in H. by destruct (String.leb x x).
Qed.

Lemma ltb_trans (x y z : string) :
  String.ltb x y = true -> String.ltb y z = true -> String.ltb x z = true.
Proof.
  rewrite !ltb_leb, !negb_true_iff. intros Hyx Hzy.
  destruct (String.leb z x) eqn:Hzx; [|done]. exfalso.
  assert (Hxy : String.le x y).
  { destruct (total String.le x y) as [?|H]; [done|].
    unfold String.le in H. by rewrite Hyx in H. }
  assert (Hzy' : String.le z y).
  { etrans; [|exact Hxy]. unfold String.le. by rewrite Hzx. }
  unfold String.le in Hzy'. by rewrite Hzy in Hzy'.
Qed.

Lemma ltb_total (x y : string) :
  String.ltb x y = false -> String.ltb y x = false -> x = y.
Proof.
  rewrite !ltb_leb, !negb_false_iff. intros H1 H2. by apply String.leb_antisym.
Qed.

(** X5: on indices inside the slice, [Less] is a strict order that compares
    the names: no element is less than itself, [Less(i, j)] excludes
    [Less(j, i)], [Less] is transitive, and two elements neither of which is
    less than the other have the same name. *)
Theorem Less_strict_order (s : SortPodStatusByName) (i j k : Z) :
  Less s i i <> Some true
  /\ (Less s i j = Some true -> Less s j i = Some false)
  /\ (Less s i j = Some true -> Less s j k = Some true -> Less s i k = Some true)
  /\ (Less s i j = Some false -> Less s j i = Some false ->
      lbapi.Name <$> index s i = lbapi.Name <$> index s j).
Proof.
  unfold Less.
  destruct (index s i) as [si|], (index s j) as [sj|], (index s k) as [sk|];
    simpl; repeat split; try done.
  all: try (rewrite ltb_irrefl; done).
  all: try (intros [= H]; f_equal; rewrite ltb_leb, negb_false_iff;
            rewrite ltb_leb, negb_true_iff in H;
            destruct (String.leb_total (lbapi.Name si) (lbapi.Name sj)) as [H'|H'];
            congruence).
  all: try (intros [= H1] [= H2]; f_equal; eauto using ltb_trans, ltb_total).
Qed.

(** X6: [Less] and [Swap] return a result exactly when both indices are
    inside the slice; with an index below 0 or at or above [Len] they panic. *)
Theorem Less_Swap_in_range (s : SortPodStatusByName) (i j : Z) :
  (is_Some (Less s i j) <-> 0 <= i < Len s /\ 0 <= j < Len s)
  /\ (is_Some (Swap s i j) <-> 0 <= i < Len s /\ 0 <= j < Len s).
Proof.
  unfold Len. rewrite <- !index_is_Some. split.
  - unfold Less. destruct (index s i), (index s j); split;
      intros H; try done; destruct H as [[??] [??]]; done.
  - split.
    + intros [s' (si & sj & Hi & Hj & Hsi & Hsj & _)%Swap_Some].
      split; apply index_is_Some; done.
    + intros [[si Hsi] [sj Hsj]].
      apply index_Some in Hsi as [Hi Hsi]. apply index_Some in Hsj as [Hj Hsj].
      eexists. apply Swap_Some. by exists si, sj.
Qed.

Lemma insert_cons_Permutation {A : Type} (l : list A) (n : nat) (x y : A) :
  l !! n = Some y -> y :: <[n := x]> l ≡ₚ x :: l.
Proof.
  revert n. induction l as [|z l IH]; intros [|n] Hn; simplify_eq/=.
  - apply Permutation_swap.
  - rewrite (Permutation_swap z y), (IH n Hn). apply Permutation_swap.
Qed.

Lemma insert_insert_Permutation {A : Type} (l : list A) (n m : nat) (x y : A) :
  l !! n = Some x -> l !! m = Some y -> <[m := x]> (<[n := y]> l) ≡ₚ l.
Proof.
  revert n m. induction l as [|z l IH]; intros [|n] [|m] Hn Hm; simplify_eq/=.
  - done.
  - by apply insert_cons_Permutation.
  - symmetry. rewrite <- (insert_cons_Permutation l n y x Hn). done.
  - f_equiv. by apply IH.
Qed.

Lemma Swap_Some_Permutation (s s' : list lbapi.PodStatus) (i j : Z) :
  Swap s i j = Some s' -> s' ≡ₚ s /\ length s' = length s.
Proof.
  intros (si & sj & Hi & Hj & Hsi & Hsj & ->)%Swap_Some. split.
  - by apply insert_insert_Permutation.
  - by rewrite !length_insert.
Qed.

(** X7: a call of [Swap] that returns leaves a permutation of the slice, of
    the same [Len]. *)
Theorem Swap_Permutation (s s' : SortPodStatusByName) (i j : Z) :
  Swap s i j = Some s' -> s' ≡ₚ s /\ Len s' = Len s.
Proof.
  intros [Hp Hl]%Swap_Some_Permutation. split; [done|].
  unfold Len, len. by rewrite Hl.
Qed.

Lemma Swap_Permutation_witness :
  Swap [worker "proxy-1" "node-2" true; worker "proxy-0" "node-1" true] 0 1
  = Some [worker "proxy-0" "node-1" true; worker "proxy-1" "node-2" true]
  /\ [worker "proxy-0" "node-1" true; worker "proxy-1" "node-2" true]
     ≡ₚ [worker "proxy-1" "node-2" true; worker "proxy-0" "node-1" true].
Proof.
  split; [reflexivity|].
  apply (Swap_Permutation
           [worker "proxy-1" "node-2" true; worker "proxy-0" "node-1" true]
           [worker "proxy-0" "node-1" true; worker "proxy-1" "node-2" true] 0 1).
  reflexivity.
Defined.

(** X8: after a call of [Swap] that returns, the elements at [i] and [j]
    have changed places and every other element is where it was; so
    [Less(i, j)] on the new slice is [Less(j, i)] on the old one. *)
Theorem Swap_exchange (s s' : SortPodStatusByName) (i j : Z) :
  Swap s i j = Some s' ->
  index s' i = index s j
  /\ index s' j = index s i
  /\ (forall k : Z, k <> i -> k <> j -> index s' k = index s k)
  /\ Less s' i j = Less s j i.
Proof.
  unfold SortPodStatusByName in *.
  intros (si & sj & Hi & Hj & Hsi & Hsj & ->)%Swap_Some.
  assert (Hli : (Z.to_nat i < length s)%nat) by (unfold len in Hi; lia).
  assert (Hlj : (Z.to_nat j < length s)%nat) by (unfold len in Hj; lia).
  assert (H1 : index (<[Z.to_nat j := si]> (<[Z.to_nat i := sj]> s)) i = index s j).
  { rewrite (proj2 (index_Some s j sj)) by done.
    apply index_Some. rewrite !len_insert. split; [done|].
    destruct (decide (Z.to_nat j = Z.to_nat i)) as [He|Hne].
    - rewrite He, list_lookup_insert_eq by (by rewrite length_insert).
      rewrite He in Hsj. congruence.
    - rewrite list_lookup_insert_ne by done. by rewrite list_lookup_insert_eq. }
  assert (H2 : index (<[Z.to_nat j := si]> (<[Z.to_nat i := sj]> s)) j = index s i).
  { rewrite (proj2 (index_Some s i si)) by done.
    apply index_Some. rewrite !len_insert. split; [done|].
    by rewrite list_lookup_insert_eq by (by rewrite length_insert). }
  repeat split; try done.
  - intros k Hki Hkj. unfold index. rewrite !len_insert.
    case_bool_decide as Hk; [|done].
    rewrite !list_lookup_insert_ne by lia. done.
  - unfold Less. by rewrite H1, H2.
Qed.

Lemma Swap_exchange_witness :
  Swap [worker "proxy-1" "node-2" true; worker "proxy-0" "node-1" true] 0 1
  = Some [worker "proxy-0" "node-1" true; worker "proxy-1" "node-2" true]
  /\ Less [worker "proxy-0" "node-1" true; worker "proxy-1" "node-2" true] 0 1
     = Less [worker "proxy-1" "node-2" true; worker "proxy-0" "node-1" true] 1 0.
Proof.
  split; [reflexivity|].
  apply (Swap_exchange
           [worker "proxy-1" "node-2" true; worker "proxy-0" "node-1" true]
           [worker "proxy-0" "node-1" true; worker "proxy-1" "node-2" true] 0 1).
  reflexivity.
Defined.

(** X9: [Swap] undoes itself: a second call with the same indices gives the
    slice back. *)
Theorem Swap_involutive (s s' : SortPodStatusByName) (i j : Z) :
  Swap s i j = Some s' -> Swap s' i j = Some s.
Proof.
  unfold SortPodStatusByName in *.
  intros (si & sj & Hi & Hj & Hsi & Hsj & ->)%Swap_Some.
  assert (Hli : (Z.to_nat i < length s)%nat) by (unfold len in Hi; lia).
  assert (Hlj : (Z.to_nat j < length s)%nat) by (unfold len in Hj; lia).
  apply Swap_Some.
  destruct (decide (Z.to_nat j = Z.to_nat i)) as [He|Hne].
  - rewrite He in *. assert (si = sj) as -> by congruence.
    exists sj, sj. rewrite !len_insert.
    rewrite !list_lookup_insert_eq by (by rewrite ?length_insert).
    repeat split; try tauto.
    rewrite !list_insert_insert_eq. by rewrite list_insert_id.
  - exists sj, si. rewrite !len_insert. repeat split; try tauto.
    + rewrite list_lookup_insert_ne by done. by rewrite list_lookup_insert_eq.
    + by rewrite list_lookup_insert_eq by (by rewrite length_insert).
    + apply list_eq. intros n. rewrite !list_lookup_insert, !length_insert.
      repeat case_decide; try done; destruct_and?; simplify_eq; try done.
      all: exfalso; naive_solver.
Qed.

Lemma Swap_involutive_witness :
  Swap [worker "proxy-1" "node-2" true; worker "proxy-0" "node-1" true] 0 1
  = Some [worker "proxy-0" "node-1" true; worker "proxy-1" "node-2" true]
  /\ Swap [worker "proxy-0" "node-1" true; worker "proxy-1" "node-2" true] 0 1
     = Some [worker "proxy-1" "node-2" true; worker "proxy-0" "node-1" true].
Proof.
  split; [reflexivity|].
  apply (Swap_involutive
           [worker "proxy-1" "node-2" true; worker "proxy-0" "node-1" true]
           [worker "proxy-0" "node-1" true; worker "proxy-1" "node-2" true] 0 1).
  reflexivity.
Defined.

(** ** The comparators as a relation *)

#[local] Instance name_lt_trans : Transitive name_lt.
Proof. intros x y z. unfold name_lt. apply ltb_trans. Qed.

#[local] Instance name_lt_antisymm : AntiSymm (=) name_lt.
Proof.
  intros x y Hxy Hyx. unfold name_lt in *.
  pose proof (ltb_trans _ _ _ Hxy Hyx) as H. by rewrite ltb_irrefl in H.
Qed.

Lemma in_order_lookup (s : list lbapi.PodStatus) :
  in_order s
  <-> forall (n : nat) (x y : lbapi.PodStatus),
        s !! n = Some x -> s !! S n = Some y ->
        String.ltb (lbapi.Name y) (lbapi.Name x) = false.
Proof.
  unfold in_order, Len, Less. split.
  - intros H n x y Hx Hy.
    assert (Hn : (S n < length s)%nat) by (by eapply lookup_lt_Some).
    specialize (H (Z.of_nat (S n))). unfold len in H.
    replace (Z.of_nat (S n) - 1) with (Z.of_nat n) in H by lia.
    rewrite !index_of_nat, Hx, Hy in H.
    assert (H' : 0 < Z.of_nat (S n) < Z.of_nat (length s)) by lia.
    by injection (H H').
  - intros H i Hi. unfold len in Hi.
    pose (n := Z.to_nat (i - 1)).
    assert (Hi1 : i = Z.of_nat (S n)) by lia.
    assert (Hi2 : i - 1 = Z.of_nat n) by lia.
    assert (Hn : (S n < length s)%nat) by lia.
    clearbody n. rewrite Hi2, Hi1, !index_of_nat.
    destruct (lookup_lt_is_Some_2 s n) as [x Hx]; [lia|].
    destruct (lookup_lt_is_Some_2 s (S n)) as [y Hy]; [lia|].
    rewrite Hx, Hy. f_equal. by eapply H.
Qed.

(** With unique names a slice in order is strictly increasing in the
    names. *)
Lemma in_order_Sorted (s : list lbapi.PodStatus) :
  NoDup (names s) -> in_order s -> Sorted name_lt s.
Proof.
  unfold names. rewrite in_order_lookup.
  induction s as [|x s IH]; [constructor|].
  rewrite fmap_cons, NoDup_cons. intros [Hx Hnd] Hord. constructor.
  - apply IH; [done|]. intros n y z Hy Hz. by apply (Hord (S n) y z).
  - destruct s as [|y s]; constructor. unfold name_lt.
    destruct (String.ltb (lbapi.Name x) (lbapi.Name y)) eqn:Hlt; [done|].
    exfalso. apply Hx. rewrite fmap_cons.
    rewrite (ltb_total (lbapi.Name x) (lbapi.Name y) Hlt (Hord 0%nat x y eq_refl eq_refl)).
    apply elem_of_cons. by left.
Qed.

Lemma all_matched_of_Permutation (a b : list lbapi.PodStatus) :
  NoDup (names a) -> a ≡ₚ b -> all_matched a b = true.
Proof.
  intros Hnd Hp. apply all_matched_Forall, Forall_forall. intros w Hw.
  apply match_by_name_unique.
  - unfold names in *. by rewrite <- Hp.
  - by rewrite <- Hp.
Qed.

Lemma ComputePodStatus_Name (pod : v1.Pod) :
  lbapi.Name (ComputePodStatus pod) = v1.pod_Name pod.
Proof.
  unfold ComputePodStatus.
  destruct (v1.DeletionTimestamp pod); [|done]. by destruct (String.eqb _ _).
Qed.

Lemma ComputePodStatus_restarts_fmap (ps qs : list v1.Pod) :
  Forall2 differ_only_in_restarts ps qs ->
  ComputePodStatus <$> ps = ComputePodStatus <$> qs.
Proof.
  induction 1 as [|p q ps qs Hpq _ IH]; [done|].
  rewrite !fmap_cons, IH. f_equal.
  destruct Hpq as (Hname & Hdel & Hspec & Hphase & Hreason & Hl).
  unfold ComputePodStatus. rewrite !scan_foldr.
  rewrite <- Hname, <- Hdel, <- Hspec, <- Hphase, <- Hreason.
  match goal with
  | |- context [foldr _ ?s (v1.ContainerStatuses (v1.Status p))] =>
      destruct (foldr_scan_restarts s s _ _ Hl eq_refl eq_refl) as [-> ->]
  end.
  reflexivity.
Qed.

Section ComparatorAlgebra.

Context {C F G : Type}.
Context `{EqDecision C, EqDecision F, EqDecision G, Inhabited C}.

Implicit Types a b c : lbapi.PodStatuses C.

(** X10: for aggregates without a shared name, the comparator returns true
    exactly when the aggregate-only fields are equal and the lists of
    workers are permutations of each other (the length check follows). *)
Theorem PodStatusesEqual_iff_Permutation a b :
  NoDup (names (lbapi.Statuses a)) ->
  PodStatusesEqual a b = true
  <-> lbapi.counters a = lbapi.counters b
      /\ lbapi.Statuses a ≡ₚ lbapi.Statuses b.
Proof.
  intros Hnd. rewrite PodStatusesEqual_true. split.
  - intros (Hlen & Hc & Hm). split; [done|]. by apply all_matched_Permutation.
  - intros (Hc & Hp). split; [by rewrite Hp|]. split; [done|].
    by apply all_matched_of_Permutation.
Qed.

(** X11: between aggregates without shared names the comparator is
    symmetric. *)
Theorem PodStatusesEqual_symmetric a b :
  NoDup (names (lbapi.Statuses a)) ->
  NoDup (names (lbapi.Statuses b)) ->
  PodStatusesEqual a b = PodStatusesEqual b a.
Proof.
  intros Ha Hb. apply bool_eq_iff. rewrite !PodStatusesEqual_true.
  split; intros (Hlen & Hc & Hm); (split; [done|]; split; [done|]);
    apply all_matched_of_Permutation; try done; symmetry;
    by apply all_matched_Permutation.
Qed.

(** X12: the comparator is transitive from an aggregate without a shared
    name. *)
Theorem PodStatusesEqual_transitive a b c :
  NoDup (names (lbapi.Statuses a)) ->
  PodStatusesEqual a b = true ->
  PodStatusesEqual b c = true ->
  PodStatusesEqual a c = true.
Proof.
  intros Ha (Hlab & Hcab & Hmab)%PodStatusesEqual_true
    (Hlbc & Hcbc & Hmbc)%PodStatusesEqual_true.
  pose proof (all_matched_Permutation _ _ Ha Hlab Hmab) as Hpab.
  assert (Hb : NoDup (names (lbapi.Statuses b)))
    by (unfold names in *; by rewrite <- Hpab).
  pose proof (all_matched_Permutation _ _ Hb Hlbc Hmbc) as Hpbc.
  apply PodStatusesEqual_true. split; [congruence|]. split; [congruence|].
  apply all_matched_of_Permutation; [done|]. by etrans.
Qed.

(** X13: on aggregates whose workers are in the order of [Less], without a
    shared name, the comparator returns true exactly when the aggregate-only
    fields are equal and the two lists hold the same workers at the same
    indices: sorting by name turns equality up to order into equality
    element by element. *)
Theorem PodStatusesEqual_in_order a b :
  NoDup (names (lbapi.Statuses a)) ->
  in_order (lbapi.Statuses a) ->
  in_order (lbapi.Statuses b) ->
  PodStatusesEqual a b = true
  <-> lbapi.counters a = lbapi.counters b
      /\ lbapi.Statuses a = lbapi.Statuses b.
Proof.
  intros Hnd Ha Hb. split.
  - intros (Hlen & Hc & Hm)%PodStatusesEqual_true. split; [done|].
    pose proof (all_matched_Permutation _ _ Hnd Hlen Hm) as Hp.
    assert (Hnd' : NoDup (names (lbapi.Statuses b)))
      by (unfold names in *; by rewrite <- Hp).
    apply (Sorted_unique name_lt); [by apply in_order_Sorted..|done].
  - intros [Hc Hs]. apply PodStatusesEqual_true.
    split; [by rewrite Hs|]. split; [done|].
    apply all_matched_of_Permutation; [done|]. by rewrite Hs.
Qed.

(** X14: the comparator of either aggregate kind returns true exactly when
    the comparator of the embedded worker sets does and the kind-specific
    fields are equal. *)
Theorem aggregate_equal_factors
    (p q : lbapi.ProxyStatus C F) (u v : lbapi.IpvsdrProviderStatus C G) :
  (ProxyStatusEqual p q = true
   <-> PodStatusesEqual (lbapi.proxy_PodStatuses p) (lbapi.proxy_PodStatuses q) = true
       /\ lbapi.proxy_fields p = lbapi.proxy_fields q)
  /\ (IpvsdrProviderStatusEqual u v = true
      <-> PodStatusesEqual (lbapi.ipvsdr_PodStatuses u) (lbapi.ipvsdr_PodStatuses v) = true
          /\ lbapi.ipvsdr_fields u = lbapi.ipvsdr_fields v).
Proof.
  destruct p as [a fa], q as [b fb], u as [a' ga], v as [b' gb]. simpl. split.
  - apply (ProxyStatusEqual_true a b fa fb).
  - apply (IpvsdrProviderStatusEqual_true a' b' ga gb).
Qed.

(** X15: a call of [Swap] on the workers of an aggregate changes the result
    of the comparator against no aggregate, on either side, when neither
    aggregate has a shared name. *)
Theorem PodStatusesEqual_Swap a b (s' : SortPodStatusByName) (i j : Z) :
  NoDup (names (lbapi.Statuses a)) ->
  NoDup (names (lbapi.Statuses b)) ->
  Swap (lbapi.Statuses a) i j = Some s' ->
  PodStatusesEqual (with_Statuses s' a) b = PodStatusesEqual a b
  /\ PodStatusesEqual b (with_Statuses s' a) = PodStatusesEqual b a.
Proof.
  intros Ha Hb [Hp Hlen]%Swap_Some_Permutation.
  split; apply PodStatusesEqual_eq; simpl; try done.
  - by apply all_matched_perm_l.
  - symmetry. by apply all_matched_perm_r.
Qed.

(** X16: statuses derived from a list of pods with distinct names, and
    statuses derived later from the same pods in another order and with
    other restart counts, compare equal: neither a reordering of the pods
    nor a restart of a container makes the aggregate look changed. *)
Theorem ComputePodStatus_PodStatusesEqual (ps qs qs' : list v1.Pod) (c : C) :
  NoDup (v1.pod_Name <$> ps) ->
  Forall2 differ_only_in_restarts ps qs ->
  qs ≡ₚ qs' ->
  PodStatusesEqual
    {| lbapi.counters := c; lbapi.Statuses := ComputePodStatus <$> ps |}
    {| lbapi.counters := c; lbapi.Statuses := ComputePodStatus <$> qs' |} = true.
Proof.
  intros Hnd Hr Hp. apply PodStatusesEqual_true; simpl.
  assert (Hperm : ComputePodStatus <$> ps ≡ₚ ComputePodStatus <$> qs')
    by (by rewrite (ComputePodStatus_restarts_fmap ps qs Hr), Hp).
  split; [by rewrite Hperm|]. split; [done|].
  apply all_matched_of_Permutation; [|done].
  unfold names. rewrite <- list_fmap_compose.
  replace ((lbapi.Name ∘ ComputePodStatus) <$> ps) with (v1.pod_Name <$> ps);
    [done|].
  apply list_fmap_ext. intros i p _. simpl. symmetry. apply ComputePodStatus_Name.
Qed.

End ComparatorAlgebra.

(** ** More on ComputePodStatus *)

Lemma count_ready_all (l : list v1.ContainerStatus) :
  count_ready l = len l <-> Forall (fun c => counts_ready c = true) l.
Proof.
  induction l as [|c l IH].
  - split; [constructor|reflexivity].
  - rewrite count_ready_cons, Forall_cons. pose proof (count_ready_bounds l).
    assert (Hl : len (c :: l) = 1 + len l) by (unfold len; simpl length; lia).
    rewrite Hl. destruct (counts_ready c); split.
    + intros Hc. split; [done|]. apply IH. lia.
    + intros [_ Hc]. apply IH in Hc. lia.
    + lia.
    + intros [? _]; discriminate.
Qed.

Lemma counts_ready_no_reason (l : list v1.ContainerStatus) :
  Forall (fun c => counts_ready c = true) l -> omap container_reason l = [].
Proof.
  induction 1 as [|c l Hc _ IH]; [done|]. simpl.
  unfold counts_ready in Hc.
  apply andb_true_iff in Hc as [[Hc _]%andb_true_iff _].
  apply bool_decide_eq_true in Hc. by rewrite Hc.
Qed.

(** X17: Ready is true exactly when the pod carries no deletion marker and
    as many observed container states are counted as ready as there are
    declared containers (the observed states being no more than an int
    counts, as in every Go slice). *)
Theorem ComputePodStatus_Ready_iff (pod : v1.Pod) :
  len (v1.ContainerStatuses (v1.Status pod)) <= max_int ->
  lbapi.Ready (ComputePodStatus pod) = true
  <-> v1.DeletionTimestamp pod = None
      /\ count_ready (v1.ContainerStatuses (v1.Status pod))
         = len (v1.Containers (v1.Spec pod)).
Proof.
  intros Hmax. rewrite ComputePodStatus_Ready.
  rewrite foldr_scan_ready by (simpl readyContainers; lia). simpl readyContainers.
  destruct (v1.DeletionTimestamp pod);
    [split; [discriminate | intros [? _]; discriminate]|].
  rewrite bool_decide_eq_true. split; [intros ?; split; [done|lia] | intros [_ ?]; lia].
Qed.

Lemma ComputePodStatus_Ready_iff_witness :
  len (v1.ContainerStatuses (v1.Status pod_two_waiting)) <= max_int
  /\ (lbapi.Ready (ComputePodStatus pod_two_waiting) = true
      <-> v1.DeletionTimestamp pod_two_waiting = None
          /\ count_ready (v1.ContainerStatuses (v1.Status pod_two_waiting))
             = len (v1.Containers (v1.Spec pod_two_waiting))).
Proof.
  split; [vm_compute; discriminate|].
  apply (ComputePodStatus_Ready_iff pod_two_waiting). vm_compute. discriminate.
Defined.

(** A container state that is terminated, or waiting with a reason that is
    not empty, sets a reason. *)
Lemma container_reason_is_Some (c : v1.ContainerStatus) :
  v1.Terminated (v1.State c) <> None
  \/ (exists w, v1.Waiting (v1.State c) = Some w
                /\ v1.waiting_Reason w <> EmptyString) ->
  container_reason c <> None.
Proof.
  unfold container_reason, non_empty. intros [Ht|(w & -> & Hw)].
  - destruct (v1.Terminated (v1.State c)) as [t|]; [|done].
    destruct (v1.Waiting (v1.State c)) as [w|];
      repeat (match goal with |- context [if ?b then _ else _] => destruct b end);
      discriminate.
  - destruct (String.eqb_spec (v1.waiting_Reason w) EmptyString); [done|].
    discriminate.
Qed.

(** X18: for a pod with no more observed container states than declared
    containers, Ready is true exactly when there is no deletion marker,
    there are as many observed states as declared containers, and every
    observed state is counted as ready; so one observed state that is
    terminated, or waiting with a reason that is not empty, keeps the pod
    from being ready. *)
Theorem ComputePodStatus_Ready_all (pod : v1.Pod) :
  len (v1.ContainerStatuses (v1.Status pod)) <= len (v1.Containers (v1.Spec pod)) ->
  len (v1.Containers (v1.Spec pod)) <= max_int ->
  (lbapi.Ready (ComputePodStatus pod) = true
   <-> v1.DeletionTimestamp pod = None
       /\ length (v1.ContainerStatuses (v1.Status pod))
          = length (v1.Containers (v1.Spec pod))
       /\ Forall (fun c => counts_ready c = true)
            (v1.ContainerStatuses (v1.Status pod)))
  /\ (forall c : v1.ContainerStatus,
        c ∈ v1.ContainerStatuses (v1.Status pod) ->
        v1.Terminated (v1.State c) <> None
        \/ (exists w, v1.Waiting (v1.State c) = Some w
                      /\ v1.waiting_Reason w <> EmptyString) ->
        lbapi.Ready (ComputePodStatus pod) = false).
Proof.
  intros Hle Hmax.
  assert (Hiff : lbapi.Ready (ComputePodStatus pod) = true
    <-> v1.DeletionTimestamp pod = None
        /\ length (v1.ContainerStatuses (v1.Status pod))
           = length (v1.Containers (v1.Spec pod))
        /\ Forall (fun c => counts_ready c = true)
             (v1.ContainerStatuses (v1.Status pod))).
  { rewrite ComputePodStatus_Ready.
    rewrite foldr_scan_ready by (simpl readyContainers; lia). simpl readyContainers.
    rewrite <- count_ready_all.
    pose proof (count_ready_bounds (v1.ContainerStatuses (v1.Status pod))) as Hb.
    destruct (v1.DeletionTimestamp pod);
      [split; [discriminate | intros [? _]; discriminate]|].
    rewrite bool_decide_eq_true. unfold len in *. split.
    - intros H. split; [done|]. split; lia.
    - intros (_ & H1 & H2). lia. }
  split; [exact Hiff|].
  intros c Hc Hstate%container_reason_is_Some. apply not_true_is_false.
  intros (_ & _ & Hall)%Hiff. rewrite Forall_forall in Hall.
  specialize (Hall c Hc). unfold counts_ready in Hall.
  apply andb_true_iff in Hall as [[Hr _]%andb_true_iff _].
  by apply bool_decide_eq_true in Hr.
Qed.

Lemma ComputePodStatus_Ready_all_witness :
  len (v1.ContainerStatuses (v1.Status
        (mk_pod None two_containers "Running" EmptyString
           [running_ready "proxy"; running_ready "sidecar"])))
    <= len two_containers
  /\ len two_containers <= max_int
  /\ lbapi.Ready (ComputePodStatus
        (mk_pod None two_containers "Running" EmptyString
           [running_ready "proxy"; running_ready "sidecar"])) = true.
Proof.
  split; [vm_compute; discriminate|]. split; [vm_compute; discriminate|].
  apply (ComputePodStatus_Ready_all
           (mk_pod None two_containers "Running" EmptyString
              [running_ready "proxy"; running_ready "sidecar"])).
  - vm_compute. discriminate.
  - vm_compute. discriminate.
  - split; [reflexivity|]. split; [reflexivity|]. repeat constructor.
Defined.

(** X19: a pod with no more observed container states than declared
    containers that comes out ready comes out with the reason held before
    the scan, its own reason or else its phase: no container has set one. *)
Theorem ComputePodStatus_Ready_Reason (pod : v1.Pod) :
  len (v1.ContainerStatuses (v1.Status pod)) <= len (v1.Containers (v1.Spec pod)) ->
  len (v1.Containers (v1.Spec pod)) <= max_int ->
  lbapi.Ready (ComputePodStatus pod) = true ->
  lbapi.Reason (ComputePodStatus pod) = initial_reason pod.
Proof.
  intros Hle Hmax Hready. rewrite ComputePodStatus_Reason.
  rewrite ComputePodStatus_Ready in Hready.
  rewrite foldr_scan_ready in Hready by (simpl readyContainers; lia).
  simpl readyContainers in Hready.
  pose proof (count_ready_bounds (v1.ContainerStatuses (v1.Status pod))) as Hb.
  destruct (v1.DeletionTimestamp pod); [discriminate|].
  apply bool_decide_eq_true in Hready.
  rewrite counts_ready_no_reason; [done|]. apply count_ready_all. lia.
Qed.

Lemma ComputePodStatus_Ready_Reason_witness :
  len (v1.ContainerStatuses (v1.Status
        (mk_pod None two_containers "Running" EmptyString
           [running_ready "proxy"; running_ready "sidecar"])))
    <= len two_containers
  /\ len two_containers <= max_int
  /\ lbapi.Ready (ComputePodStatus
        (mk_pod None two_containers "Running" EmptyString
           [running_ready "proxy"; running_ready "sidecar"])) = true
  /\ lbapi.Reason (ComputePodStatus
        (mk_pod None two_containers "Running" EmptyString
           [running_ready "proxy"; running_ready "sidecar"])) = "Running".
Proof.
  split; [vm_compute; discriminate|]. split; [vm_compute; discriminate|].
  split; [reflexivity|].
  apply (ComputePodStatus_Ready_Reason
           (mk_pod None two_containers "Running" EmptyString
              [running_ready "proxy"; running_ready "sidecar"])).
  - vm_compute. discriminate.
  - vm_compute. discriminate.
  - reflexivity.
Defined.

(** X20: ReadyContainers is the number of observed container states counted
    as ready, between 0 and the number of observed states, whatever the
    declared containers are (the observed states being no more than an
    int32 counts). *)
Theorem ComputePodStatus_ready_le_observed (pod : v1.Pod) :
  len (v1.ContainerStatuses (v1.Status pod)) <= max_int32 ->
  lbapi.ReadyContainers (ComputePodStatus pod)
    = count_ready (v1.ContainerStatuses (v1.Status pod))
  /\ 0 <= lbapi.ReadyContainers (ComputePodStatus pod)
       <= len (v1.ContainerStatuses (v1.Status pod)).
Proof.
  intros Hmax. destruct (ComputePodStatus_counts pod) as [-> _].
  pose proof (count_ready_bounds (v1.ContainerStatuses (v1.Status pod))) as Hb.
  rewrite foldr_scan_ready; simpl readyContainers;
    [|lia|unfold max_int, max_int32 in *; lia].
  rewrite int32_small; unfold max_int32 in *; lia.
Qed.

Lemma ComputePodStatus_ready_le_observed_witness :
  len (v1.ContainerStatuses (v1.Status pod_undeclared_container)) <= max_int32
  /\ 0 <= lbapi.ReadyContainers (ComputePodStatus pod_undeclared_container)
       <= len (v1.ContainerStatuses (v1.Status pod_undeclared_container)).
Proof.
  split; [vm_compute; discriminate|].
  apply (ComputePodStatus_ready_le_observed pod_undeclared_container).
  vm_compute. discriminate.
Defined.

(** ** More on CalculateReplicas *)

(** X21: with a declared count that is absent or not negative, the replicas
    returned are not negative, and node affinity comes with at least one
    replica (the node names being no more than an int32 counts). *)
Theorem CalculateReplicas_bounds (lb : lbapi.LoadBalancer) :
  len (lbapi.Names (lbapi.Nodes (lbapi.Spec lb))) <= max_int32 ->
  (forall r, lbapi.Replicas (lbapi.Nodes (lbapi.Spec lb)) = Some r -> 0 <= r) ->
  0 <= fst (CalculateReplicas lb)
  /\ (snd (CalculateReplicas lb) = true -> 1 <= fst (CalculateReplicas lb)).
Proof.
  intros Hmax Hr. unfold CalculateReplicas.
  destruct (Z.eqb_spec (len (lbapi.Names (lbapi.Nodes (lbapi.Spec lb)))) 0)
    as [He|Hne]; simpl negb; cbv iota; simpl fst; simpl snd.
  - split; [|done].
    destruct (lbapi.Replicas (lbapi.Nodes (lbapi.Spec lb))) as [r|]; [by apply Hr|done].
  - assert (H0 : 0 <= len (lbapi.Names (lbapi.Nodes (lbapi.Spec lb))))
      by (unfold len; lia).
    rewrite int32_small by (unfold max_int32 in *; lia). lia.
Qed.

Lemma CalculateReplicas_bounds_witness :
  len (lbapi.Names (lbapi.Nodes (lbapi.Spec (mk_lb (Some 3) ["a"; "b"])))) <= max_int32
  /\ 1 <= fst (CalculateReplicas (mk_lb (Some 3) ["a"; "b"])).
Proof.
  split; [vm_compute; discriminate|].
  apply (CalculateReplicas_bounds (mk_lb (Some 3) ["a"; "b"])).
  - vm_compute. discriminate.
  - intros r [= <-]. lia.
  - reflexivity.
Defined.

(** ** RandStringBytesRmndr *)

Lemma letterBytes_lower (k : nat) :
  (k < 26)%nat ->
  exists c, String.get k letterBytes = Some c /\ is_lower c = true.
Proof.
  intros Hk.
  do 26 (destruct k as [|k]; [eexists; split; reflexivity|]). lia.
Qed.

Lemma letterBytes_alnum (k : nat) :
  (k < 36)%nat ->
  exists c, String.get k letterBytes = Some c /\ is_lower c || is_digit c = true.
Proof.
  intros Hk.
  do 36 (destruct k as [|k]; [eexists; split; reflexivity|]). lia.
Qed.

Lemma rem_bounds (r : N) (m : Z) : 0 < m -> 0 <= Z.rem (Z.of_N r) m < m.
Proof. intros Hm. apply Z.rem_bound_pos; lia. Qed.

Lemma byte_at_26 (r : N) :
  byte_at letterBytes (Z.rem (Z.of_N r) 26) = Some (letter 26 r)
  /\ is_lower (letter 26 r) = true.
Proof.
  unfold letter, byte_at. pose proof (rem_bounds r 26 eq_refl) as Hb.
  change (Z.of_nat (String.length letterBytes)) with 36.
  rewrite bool_decide_eq_true_2 by lia.
  destruct (letterBytes_lower (Z.to_nat (Z.rem (Z.of_N r) 26))) as (c & -> & Hc);
    [lia|done].
Qed.

Lemma byte_at_36 (r : N) :
  byte_at letterBytes (Z.rem (Z.of_N r) 36) = Some (letter 36 r)
  /\ is_lower (letter 36 r) || is_digit (letter 36 r) = true.
Proof.
  unfold letter, byte_at. pose proof (rem_bounds r 36 eq_refl) as Hb.
  change (Z.of_nat (String.length letterBytes)) with 36.
  rewrite bool_decide_eq_true_2 by lia.
  destruct (letterBytes_alnum (Z.to_nat (Z.rem (Z.of_N r) 36))) as (c & -> & Hc);
    [lia|done].
Qed.

Lemma length_string_of_list_ascii (l : list ascii) :
  String.length (string_of_list_ascii l) = length l.
Proof. induction l; simpl; congruence. Qed.

Lemma get_string_of_list_ascii (l : list ascii) (k : nat) :
  String.get k (string_of_list_ascii l) = l !! k.
Proof. revert k. induction l as [|c l IH]; intros [|k]; simpl; auto. Qed.

Lemma substring_string_of_list_ascii (l : list ascii) (n : nat) :
  String.substring 0 n (string_of_list_ascii l) = string_of_list_ascii (take n l).
Proof. revert n. induction l as [|c l IH]; intros [|n]; simpl; try done. by rewrite IH. Qed.

Lemma chars_alphabet (rs : list N) (k : nat) (c : ascii) :
  chars rs !! k = Some c ->
  is_lower c || is_digit c = true /\ (k = 0%nat -> is_lower c = true).
Proof.
  destruct rs as [|r rs]; [done|]. destruct k as [|k]; simpl.
  - intros [= <-]. destruct (byte_at_26 r) as [_ Hl]. by rewrite Hl.
  - rewrite list_lookup_fmap. destruct (rs !! k) as [r'|]; [|done].
    intros [= <-]. destruct (byte_at_36 r') as [_ Hl]. split; [done|lia].
Qed.

Lemma length_chars (rs : list N) : length (chars rs) = length rs.
Proof. destruct rs; simpl; [done|]. by rewrite length_fmap. Qed.

Lemma take_chars (rs : list N) (n : nat) : take n (chars rs) = chars (take n rs).
Proof. destruct rs as [|r rs], n as [|n]; simpl; try done. by rewrite fmap_take. Qed.

Section RandStringProperties.

Context {source : Type}.
Variable Seed : Z -> source.
Variable Int63 : source -> N * source.
Variable can_make : Z -> bool.

Lemma length_draws (k : nat) (src : source) : length (draws Int63 k src) = k.
Proof.
  revert src. induction k as [|k IH]; intros src; simpl; [done|].
  destruct (Int63 src) as [r src']. simpl. by rewrite IH.
Qed.

Lemma take_draws (n m : nat) (src : source) :
  (n <= m)%nat -> take n (draws Int63 m src) = draws Int63 n src.
Proof.
  revert m src. induction n as [|n IH]; intros m src Hnm; [done|].
  destruct m as [|m]; [lia|]. simpl.
  destruct (Int63 src) as [r src']. simpl. rewrite IH by lia. done.
Qed.

(** The loop writes the bytes of the next [k] drawn values from index [i]
    on. *)
Lemma fill_spec (k i : nat) (b : list ascii) (src : source) :
  (i + k <= length b)%nat ->
  fill Int63 k (Z.of_nat i) b src
  = Some ((take i b ++ (letter 36 <$> draws Int63 k src) ++ drop (i + k) b)%list,
          after_draws Int63 k src).
Proof.
  revert i b src. induction k as [|k IH]; intros i b src Hik;
    cbn [fill draws after_draws].
  - by rewrite Nat.add_0_r, fmap_nil, app_nil_l, take_drop.
  - destruct (Int63 src) as [r src'] eqn:Hr. cbn [snd]. rewrite fmap_cons.
    change (Z.of_nat (String.length letterBytes)) with 36.
    destruct (byte_at_36 r) as [-> _].
    unfold store, len. rewrite bool_decide_eq_true_2 by lia.
    rewrite Nat2Z.id. replace (Z.of_nat i + 1) with (Z.of_nat (S i)) by lia.
    rewrite IH by (rewrite length_insert; lia).
    rewrite (take_S_r _ _ (letter 36 r))
      by (apply list_lookup_insert_eq; lia).
    rewrite take_insert_ge by lia. rewrite drop_insert_lt by lia.
    rewrite <- app_assoc. simpl. repeat f_equal. lia.
Qed.

(** A call with a length of at least 1 that the runtime grants returns the
    bytes of the first [n] values drawn after seeding, and leaves the source
    after them. *)
Lemma RandStringBytesRmndr_chars (nanosecond n : Z) :
  1 <= n -> can_make n = true ->
  RandStringBytesRmndr Seed Int63 can_make nanosecond n
  = Some (string_of_list_ascii (chars (draws Int63 (Z.to_nat n) (Seed nanosecond))),
          after_draws Int63 (Z.to_nat n) (Seed nanosecond)).
Proof.
  intros Hn Hmake. unfold RandStringBytesRmndr. rewrite Hmake.
  destruct (Z.ltb_spec n 0) as [?|_]; [lia|]. simpl orb. cbv iota.
  destruct (Z.to_nat n) as [|m] eqn:Hm; [lia|].
  replace (Z.to_nat (n - 1)) with m by lia. simpl.
  destruct (Int63 (Seed nanosecond)) as [r src'] eqn:Hr. simpl.
  destruct (byte_at_26 r) as [-> _].
  change 1 with (Z.of_nat 1).
  rewrite fill_spec by (simpl; rewrite length_replicate; lia).
  cbn [take drop Nat.add]. rewrite take_0, drop_ge by (rewrite length_replicate; lia).
  by rewrite app_nil_r.
Qed.

Lemma RandStringBytesRmndr_Some_pos (nanosecond n : Z) (res : string * source) :
  RandStringBytesRmndr Seed Int63 can_make nanosecond n = Some res ->
  1 <= n /\ can_make n = true.
Proof.
  intros Hres. unfold RandStringBytesRmndr in Hres.
  destruct (Z.ltb_spec n 0) as [?|Hn0]; [done|].
  destruct (can_make n); [|done]. split; [|done]. simpl in Hres.
  destruct (Z.le_gt_cases 1 n) as [?|Hn]; [done|]. exfalso.
  assert (n = 0) as -> by lia. simpl in Hres.
  destruct (Int63 (Seed nanosecond)) as [r src'].
  destruct (byte_at letterBytes (Z.rem (Z.of_N r) 26)); done.
Qed.

(** X1: the call returns a string exactly when the length asked for is at
    least 1 and the runtime grants the allocation of that many bytes; with
    0 it panics on the write of the first byte, with a negative length or
    one above the allocation limit on the allocation. *)
Theorem RandStringBytesRmndr_returns (nanosecond n : Z) :
  is_Some (RandStringBytesRmndr Seed Int63 can_make nanosecond n)
  <-> 1 <= n /\ can_make n = true.
Proof.
  split.
  - intros [res Hres]. by eapply RandStringBytesRmndr_Some_pos.
  - intros [Hn Hmake]. by rewrite RandStringBytesRmndr_chars.
Qed.

(** X2: the string returned has the length asked for, and each of its bytes
    is a lowercase letter or a decimal digit. *)
Theorem RandStringBytesRmndr_alphabet (nanosecond n : Z) (s : string) (src : source) :
  RandStringBytesRmndr Seed Int63 can_make nanosecond n = Some (s, src) ->
  Z.of_nat (String.length s) = n
  /\ forall (k : nat) (c : ascii),
       String.get k s = Some c -> is_lower c || is_digit c = true.
Proof.
  intros Hres.
  destruct (RandStringBytesRmndr_Some_pos _ _ _ Hres) as [Hn Hmake].
  rewrite RandStringBytesRmndr_chars in Hres by done. injection Hres as <- _.
  split.
  - rewrite length_string_of_list_ascii, length_chars, length_draws. lia.
  - intros k c. rewrite get_string_of_list_ascii. by intros [? _]%chars_alphabet.
Qed.

(** X3: the string returned starts with a lowercase letter, never with a
    digit. *)
Theorem RandStringBytesRmndr_first (nanosecond n : Z) (s : string) (src : source) :
  RandStringBytesRmndr Seed Int63 can_make nanosecond n = Some (s, src) ->
  exists c : ascii, String.get 0 s = Some c /\ is_lower c = true.
Proof.
  intros Hres.
  destruct (RandStringBytesRmndr_Some_pos _ _ _ Hres) as [Hn Hmake].
  rewrite RandStringBytesRmndr_chars in Hres by done. injection Hres as <- _.
  rewrite get_string_of_list_ascii.
  destruct (lookup_lt_is_Some_2
              (chars (draws Int63 (Z.to_nat n) (Seed nanosecond))) 0) as [c Hc].
  { rewrite length_chars, length_draws. lia. }
  exists c. split; [done|]. by apply (chars_alphabet _ 0 c Hc).
Qed.

(** X4: the source is seeded anew at every call, so two calls that read the
    same nanosecond return strings one of which is the beginning of the
    other: the first [n] bytes of the longer are the shorter. *)
Theorem RandStringBytesRmndr_prefix
    (nanosecond n m : Z) (s t : string) (src src' : source) :
  n <= m ->
  RandStringBytesRmndr Seed Int63 can_make nanosecond n = Some (s, src) ->
  RandStringBytesRmndr Seed Int63 can_make nanosecond m = Some (t, src') ->
  String.substring 0 (Z.to_nat n) t = s.
Proof.
  intros Hnm Hs Ht.
  destruct (RandStringBytesRmndr_Some_pos _ _ _ Hs) as [Hn Hmake].
  destruct (RandStringBytesRmndr_Some_pos _ _ _ Ht) as [Hm Hmake'].
  rewrite RandStringBytesRmndr_chars in Hs, Ht by done.
  injection Hs as <- _. injection Ht as <- _.
  rewrite substring_string_of_list_ascii, take_chars, take_draws by lia. done.
Qed.

End RandStringProperties.

Lemma RandStringBytesRmndr_returns_witness :
  is_Some (RandStringBytesRmndr lcg_Seed lcg_Int63 small_make 123456789 8)
  /\ ~ is_Some (RandStringBytesRmndr lcg_Seed lcg_Int63 small_make 123456789 0)
  /\ ~ is_Some (RandStringBytesRmndr lcg_Seed lcg_Int63 small_make 123456789 (2 ^ 62)).
Proof.
  split; [|split].
  - apply (RandStringBytesRmndr_returns lcg_Seed lcg_Int63 small_make 123456789 8).
    split; [lia|reflexivity].
  - intros H.
    apply (RandStringBytesRmndr_returns lcg_Seed lcg_Int63 small_make 123456789 0) in H.
    lia.
  - intros H.
    apply (RandStringBytesRmndr_returns lcg_Seed lcg_Int63 small_make 123456789 (2 ^ 62))
      in H.
    destruct H as [_ H]. discriminate H.
Defined.

Lemma RandStringBytesRmndr_alphabet_witness :
  RandStringBytesRmndr lcg_Seed lcg_Int63 small_make 123456789 8
  = Some ("spsralob", 7157742935257044829%N)
  /\ Z.of_nat (String.length "spsralob") = 8.
Proof.
  split; [vm_compute; reflexivity|].
  apply (RandStringBytesRmndr_alphabet lcg_Seed lcg_Int63 small_make 123456789 8
           "spsralob" 7157742935257044829%N).
  vm_compute. reflexivity.
Defined.

Lemma RandStringBytesRmndr_first_witness :
  RandStringBytesRmndr lcg_Seed lcg_Int63 small_make 123456789 8
  = Some ("spsralob", 7157742935257044829%N)
  /\ exists c : ascii, String.get 0 "spsralob" = Some c /\ is_lower c = true.
Proof.
  split; [vm_compute; reflexivity|].
  apply (RandStringBytesRmndr_first lcg_Seed lcg_Int63 small_make 123456789 8
           "spsralob" 7157742935257044829%N).
  vm_compute. reflexivity.
Defined.

Lemma RandStringBytesRmndr_prefix_witness :
  3 <= 8
  /\ RandStringBytesRmndr lcg_Seed lcg_Int63 small_make 123456789 3
     = Some ("sps", 5237253296747580978%N)
  /\ RandStringBytesRmndr lcg_Seed lcg_Int63 small_make 123456789 8
     = Some ("spsralob", 7157742935257044829%N)
  /\ String.substring 0 (Z.to_nat 3) "spsralob" = "sps".
Proof.
  split; [lia|]. split; [vm_compute; reflexivity|]. split; [vm_compute; reflexivity|].
  apply (RandStringBytesRmndr_prefix lcg_Seed lcg_Int63 small_make 123456789 3 8
           "sps" "spsralob" 5237253296747580978%N 7157742935257044829%N).
  - lia.
  - vm_compute. reflexivity.
  - vm_compute. reflexivity.
Defined.

Lemma two_workers_NoDup : NoDup (names two_workers).
Proof. apply (bool_decide_unpack _). vm_compute. exact I. Defined.

Lemma two_workers_swapped_NoDup : NoDup (names two_workers_swapped).
Proof. apply (bool_decide_unpack _). vm_compute. exact I. Defined.

Lemma PodStatusesEqual_iff_Permutation_witness :
  NoDup (names two_workers)
  /\ (PodStatusesEqual (aggregate two_workers) (aggregate two_workers_swapped) = true
      <-> lbapi.counters (aggregate two_workers)
          = lbapi.counters (aggregate two_workers_swapped)
          /\ two_workers ≡ₚ two_workers_swapped).
Proof.
  split; [exact two_workers_NoDup|].
  apply (PodStatusesEqual_iff_Permutation
           (aggregate two_workers) (aggregate two_workers_swapped)
           two_workers_NoDup).
Defined.

Lemma PodStatusesEqual_symmetric_witness :
  NoDup (names two_workers) /\ NoDup (names two_workers_swapped)
  /\ PodStatusesEqual (aggregate two_workers) (aggregate two_workers_swapped)
     = PodStatusesEqual (aggregate two_workers_swapped) (aggregate two_workers).
Proof.
  split; [exact two_workers_NoDup|]. split; [exact two_workers_swapped_NoDup|].
  apply (PodStatusesEqual_symmetric
           (aggregate two_workers) (aggregate two_workers_swapped)
           two_workers_NoDup two_workers_swapped_NoDup).
Defined.

Lemma PodStatusesEqual_transitive_witness :
  NoDup (names two_workers)
  /\ PodStatusesEqual (aggregate two_workers) (aggregate two_workers_swapped) = true
  /\ PodStatusesEqual (aggregate two_workers_swapped) (aggregate two_workers) = true
  /\ PodStatusesEqual (aggregate two_workers) (aggregate two_workers) = true.
Proof.
  split; [exact two_workers_NoDup|]. split; [reflexivity|]. split; [reflexivity|].
  apply (PodStatusesEqual_transitive
           (aggregate two_workers) (aggregate two_workers_swapped)
           (aggregate two_workers) two_workers_NoDup); reflexivity.
Defined.

Lemma two_workers_in_order : in_order two_workers.
Proof.
  intros i Hi. unfold Len, len, two_workers in Hi. simpl in Hi.
  assert (i = 1) as -> by lia. reflexivity.
Defined.

Lemma PodStatusesEqual_in_order_witness :
  NoDup (names two_workers) /\ in_order two_workers
  /\ PodStatusesEqual (aggregate two_workers) (aggregate two_workers) = true.
Proof.
  split; [exact two_workers_NoDup|]. split; [exact two_workers_in_order|].
  apply (PodStatusesEqual_in_order (aggregate two_workers) (aggregate two_workers)
           two_workers_NoDup two_workers_in_order two_workers_in_order).
  split; reflexivity.
Defined.

Lemma PodStatusesEqual_Swap_witness :
  NoDup (names two_workers) /\ NoDup (names two_workers_swapped)
  /\ Swap two_workers 0 1 = Some two_workers_swapped
  /\ PodStatusesEqual (with_Statuses two_workers_swapped (aggregate two_workers))
       (aggregate two_workers_swapped)
     = PodStatusesEqual (aggregate two_workers) (aggregate two_workers_swapped).
Proof.
  split; [exact two_workers_NoDup|]. split; [exact two_workers_swapped_NoDup|].
  split; [reflexivity|].
  apply (PodStatusesEqual_Swap
           (aggregate two_workers) (aggregate two_workers_swapped)
           two_workers_swapped 0 1
           two_workers_NoDup two_workers_swapped_NoDup eq_refl).
Defined.

Lemma ComputePodStatus_PodStatusesEqual_witness :
  NoDup (v1.pod_Name <$> [rename_pod "proxy-0" pod_two_waiting;
                          rename_pod "proxy-1" pod_undeclared_container])
  /\ PodStatusesEqual
       {| lbapi.counters := 2;
          lbapi.Statuses :=
            ComputePodStatus <$> [rename_pod "proxy-0" pod_two_waiting;
                                  rename_pod "proxy-1" pod_undeclared_container] |}
       {| lbapi.counters := 2;
          lbapi.Statuses :=
            ComputePodStatus <$>
              [rename_pod "proxy-1"
                 (mk_pod None [] "Running" EmptyString
                    [restarted 7 (running_ready "proxy")]);
               rename_pod "proxy-0" pod_two_waiting] |} = true.
Proof.
  assert (Hnd : NoDup (v1.pod_Name <$> [rename_pod "proxy-0" pod_two_waiting;
                                        rename_pod "proxy-1" pod_undeclared_container])).
  { apply (bool_decide_unpack _). vm_compute. exact I. }
  split; [exact Hnd|].
  apply (ComputePodStatus_PodStatusesEqual
           [rename_pod "proxy-0" pod_two_waiting;
            rename_pod "proxy-1" pod_undeclared_container]
           [rename_pod "proxy-0" pod_two_waiting;
            rename_pod "proxy-1"
              (mk_pod None [] "Running" EmptyString
                 [restarted 7 (running_ready "proxy")])]
           [rename_pod "proxy-1"
              (mk_pod None [] "Running" EmptyString
                 [restarted 7 (running_ready "proxy")]);
            rename_pod "proxy-0" pod_two_waiting]
           2 Hnd).
  - repeat constructor.
  - apply Permutation_swap.
Defined.
